(** * discord-tradebot: the event-driven signal pipeline

    A shallow embedding of the trading package (risk.py, controls.py,
    events.py, execution.py, signal_parser.py) and of the wiring done in
    main.py, with the properties of the pipeline stated and proved on it.

    Conventions.
    - A Python [float] is modelled by [Float.float]: a finite value is an
      exact rational (binary64 rounding error is abstracted away), next to
      the three special values [+inf], [-inf] and [nan] with their IEEE
      comparison and addition rules.
    - The prices carried by a [TradeSignal] are finite decimals, as the
      parser's [[0-9]+(\.[0-9]+)?] tokens denote them: they are rationals.
    - Objects shared by reference (the one [RiskManager] that both the
      execution manager and the emergency controls hold) live once in the
      state that is passed along. *)

From Stdlib Require Import ZArith QArith Qround Qabs Lqa Lia Bool List String Ascii.
From stdpp Require Import base option list gmap strings.
Import ListNotations.

Local Open Scope Z_scope.

(* ===================================================================== *)
(** ** Python floats *)
(* ===================================================================== *)

Module Float.

Inductive float : Type :=
| Fin (q : Q)
| PInf
| NInf
| NaN.

Definition zero : float := Fin 0%Q.

Definition Qltb (a b : Q) : bool := negb (Qle_bool b a).

(** [a < b] *)
Definition ltb (a b : float) : bool :=
  match a, b with
  | NaN, _ | _, NaN => false
  | Fin x, Fin y => Qltb x y
  | Fin _, PInf => true
  | NInf, Fin _ => true
  | NInf, PInf => true
  | _, _ => false
  end.

(** [a <= b] *)
Definition leb (a b : float) : bool :=
  match a, b with
  | NaN, _ | _, NaN => false
  | Fin x, Fin y => Qle_bool x y
  | _, PInf => true
  | NInf, _ => true
  | _, _ => false
  end.

(** [a > b] and [a >= b] *)
Definition gtb (a b : float) : bool := ltb b a.
Definition geb (a b : float) : bool := leb b a.

(** [a + b] *)
Definition add (a b : float) : float :=
  match a, b with
  | NaN, _ | _, NaN => NaN
  | Fin x, Fin y => Fin (Qred (x + y))
  | PInf, NInf | NInf, PInf => NaN
  | PInf, _ | _, PInf => PInf
  | NInf, _ | _, NInf => NInf
  end.

(** Nearest integer, ties to the even one. *)
Definition round_half_even (q : Q) : Z :=
  let f := Qfloor q in
  match (q - inject_Z f ?= 1 # 2)%Q with
  | Lt => f
  | Gt => f + 1
  | Eq => if Z.even f then f else f + 1
  end.

Definition Qround2 (q : Q) : Q :=
  Qred (inject_Z (round_half_even (q * 100)) / 100).

(** [round(a, 2)]: the special values are returned as they are. *)
Definition round2 (a : float) : float :=
  match a with
  | Fin q => Fin (Qround2 q)
  | _ => a
  end.

(** [sum(xs)]: a left fold that starts from the integer 0. *)
Definition sum (xs : list float) : float := fold_left add xs zero.

Definition is_finite (a : float) : bool :=
  match a with Fin _ => true | _ => false end.

End Float.

Import Float.

(* ===================================================================== *)
(** ** signal_parser.TradeSignal (the record; the parser comes later) *)
(* ===================================================================== *)

(** [datetime.date]: a triple that the constructor [mk_date] below has
    checked. *)
Record date : Type := Date { year : Z; month : Z; day : Z }.

Record TradeSignal : Type := {
  symbol : string;
  strike : Q;
  option_type : string;
  expiration_date : date;
  entry_price : Q;
  stop_price : Q;
  raw_message : string
}.

(* ===================================================================== *)
(** ** risk.py *)
(* ===================================================================== *)

Record Position : Type := {
  pos_symbol : string;
  risk : float   (* risk contribution for the total risk calculation *)
}.

Record RiskManager : Type := {
  max_open_positions : Z;
  max_risk_per_trade : float;
  max_total_risk : float;
  contract_multiplier : Z;
  open_positions : list Position
}.

(** [RiskManager.__init__] with its default arguments. *)
Definition RiskManager_init
    (max_open : Z) (per_trade total : float) (multiplier : Z) : RiskManager :=
  {| max_open_positions := max_open;
     max_risk_per_trade := per_trade;
     max_total_risk := total;
     contract_multiplier := multiplier;
     open_positions := [] |}.

Definition RiskManager_default : RiskManager :=
  RiskManager_init 5 (Fin 100) (Fin 300) 100.

(** The second component of [should_accept]'s result.  The source renders
    it as an f-string; the record keeps the values the string is built
    from. *)
Inductive reason : Type :=
| MaxOpenPositionsReached (limit : Z)
| TradeRiskExceeds (notional limit : float)
| TotalRiskExceeds (total limit : float)
| Accepted.

Definition _calculate_trade_risk
    (self : RiskManager) (signal : TradeSignal) (quantity : Z) : float :=
  let diff := (entry_price signal - stop_price signal)%Q in
  if Qle_bool diff 0 then PInf
  else Fin (Qround2 (diff * inject_Z quantity
                          * inject_Z (contract_multiplier self))).

Definition total_recorded_risk (self : RiskManager) : float :=
  Float.sum (map risk (open_positions self)).

(** [notional_risk if notional_risk < self.max_risk_per_trade else 0.0] *)
Definition risk_contribution (self : RiskManager) (notional_risk : float) : float :=
  if ltb notional_risk (max_risk_per_trade self) then notional_risk else Float.zero.

Definition should_accept
    (self : RiskManager) (signal : TradeSignal) (quantity : Z) : bool * reason :=
  if Z.of_nat (length (open_positions self)) >=? max_open_positions self then
    (false, MaxOpenPositionsReached (max_open_positions self))
  else
    let notional_risk := _calculate_trade_risk self signal quantity in
    if gtb notional_risk (max_risk_per_trade self) then
      (false, TradeRiskExceeds notional_risk (max_risk_per_trade self))
    else
      let contribution := risk_contribution self notional_risk in
      let total_risk := round2 (total_recorded_risk self) in
      if geb (add total_risk contribution) (max_total_risk self) then
        (false, TotalRiskExceeds (add total_risk contribution) (max_total_risk self))
      else (true, Accepted).

Definition with_positions (self : RiskManager) (ps : list Position) : RiskManager :=
  {| max_open_positions := max_open_positions self;
     max_risk_per_trade := max_risk_per_trade self;
     max_total_risk := max_total_risk self;
     contract_multiplier := contract_multiplier self;
     open_positions := ps |}.

Definition register_trade
    (self : RiskManager) (signal : TradeSignal) (quantity : Z) : RiskManager :=
  let notional_risk := _calculate_trade_risk self signal quantity in
  let contribution := risk_contribution self notional_risk in
  with_positions self
    (open_positions self ++
       [ {| pos_symbol := symbol signal; risk := round2 contribution |} ]).

Definition close_all (self : RiskManager) : RiskManager :=
  with_positions self [].

(* ===================================================================== *)
(** ** Exceptions and Python values *)
(* ===================================================================== *)

(** An instance of a subclass of [Exception]: what [except Exception]
    catches.  [str exc] is its message. *)
Record exn : Type := { exn_class : string; str : string }.

Definition ValueError (msg : string) : exn := {| exn_class := "ValueError"; str := msg |}.
Definition AttributeError (msg : string) : exn := {| exn_class := "AttributeError"; str := msg |}.
Definition RecursionError : exn :=
  {| exn_class := "RecursionError"; str := "maximum recursion depth exceeded" |}.
Definition SignalParserError (msg : string) : exn :=
  {| exn_class := "SignalParserError"; str := msg |}.

(** How a call ends. *)
Inductive outcome : Type :=
| Returned
| Raised (e : exn).

(** A fallible computation: the value returned or the exception raised. *)
Inductive result (A : Type) : Type :=
| Ok (a : A)
| Err (e : exn).
Arguments Ok {A} a.
Arguments Err {A} e.

Definition bind {A B : Type} (r : result A) (k : A -> result B) : result B :=
  match r with
  | Ok a => k a
  | Err e => Err e
  end.

Declare Scope result_scope.
Delimit Scope result_scope with result.
Notation "'try!' x ':=' r 'in' k" := (bind r (fun x => k))
  (at level 10, x name, r at level 100, k at level 200) : result_scope.

(** The JSON-like values an [OrderEvent.response] holds: scalars, and
    lists and dictionaries of them ([POther] stands for any deeper value,
    of which only the truth value matters here). *)
Inductive pyatom : Type :=
| PNone
| PBool (b : bool)
| PInt (z : Z)
| PStr (s : string)
| POther (truth : bool).

Inductive pyval : Type :=
| PAtom (a : pyatom)
| PList (items : list pyatom)
| PDict (items : list (string * pyatom)).

(** Truth value of a Python object. *)
Definition truthy (a : pyatom) : bool :=
  match a with
  | PNone => false
  | PBool b => b
  | PInt z => negb (z =? 0)
  | PStr s => negb (String.eqb s "")
  | POther truth => truth
  end.

(** [d.get(key)], [None] when the key is absent. *)
Fixpoint dict_get (items : list (string * pyatom)) (key : string) : pyatom :=
  match items with
  | [] => PNone
  | (k, v) :: rest => if String.eqb k key then v else dict_get rest key
  end.

(* ===================================================================== *)
(** ** controls.py *)
(* ===================================================================== *)

(** The dataclass holds a reference to the risk manager; the state below
    keeps that one object here, and every other component reaches it
    through [risk_manager]. *)
Record EmergencyControls : Type := {
  risk_manager : RiskManager;
  max_consecutive_failures : Z;
  trading_enabled : bool;
  consecutive_failures : Z
}.

(** [EmergencyControls(risk_manager=..., max_consecutive_failures=...)] *)
Definition EmergencyControls_init (rm : RiskManager) (max_failures : Z) : EmergencyControls :=
  {| risk_manager := rm;
     max_consecutive_failures := max_failures;
     trading_enabled := true;
     consecutive_failures := 0 |}.

Definition record_failure (self : EmergencyControls) : EmergencyControls :=
  let failures := consecutive_failures self + 1 in
  if failures >=? max_consecutive_failures self then
    {| risk_manager := close_all (risk_manager self);
       max_consecutive_failures := max_consecutive_failures self;
       trading_enabled := false;
       consecutive_failures := failures |}
  else
    {| risk_manager := risk_manager self;
       max_consecutive_failures := max_consecutive_failures self;
       trading_enabled := trading_enabled self;
       consecutive_failures := failures |}.

Definition reset_failures (self : EmergencyControls) : EmergencyControls :=
  {| risk_manager := risk_manager self;
     max_consecutive_failures := max_consecutive_failures self;
     trading_enabled := trading_enabled self;
     consecutive_failures := 0 |}.

Definition is_enabled (self : EmergencyControls) : bool := trading_enabled self.

(** The three operations of the class, for runs of arbitrary length. *)
Inductive controls_op : Type :=
| OpRecordFailure
| OpResetFailures
| OpIsEnabled.

Definition controls_step (self : EmergencyControls) (op : controls_op) : EmergencyControls :=
  match op with
  | OpRecordFailure => record_failure self
  | OpResetFailures => reset_failures self
  | OpIsEnabled => self
  end.

Definition controls_run (ops : list controls_op) (self : EmergencyControls) : EmergencyControls :=
  fold_left controls_step ops self.

(* ===================================================================== *)
(** ** events.py *)
(* ===================================================================== *)

(** The event classes; [type(event)] is one of them. *)
Inductive event_type : Type :=
| BaseEvent_cls
| AlertEvent_cls
| OrderEvent_cls
| RiskEvent_cls.

Inductive event : Type :=
| BaseEvent (timestamp : Z)
| AlertEvent (timestamp : Z) (signal : TradeSignal) (raw : string)
| OrderEvent (timestamp : Z) (signal : TradeSignal) (response : pyval)
| RiskEvent (timestamp : Z) (signal : TradeSignal) (accepted : bool) (why : reason).

Definition type_of (ev : event) : event_type :=
  match ev with
  | BaseEvent _ => BaseEvent_cls
  | AlertEvent _ _ _ => AlertEvent_cls
  | OrderEvent _ _ _ => OrderEvent_cls
  | RiskEvent _ _ _ _ => RiskEvent_cls
  end.

#[global] Instance event_type_eq_dec : EqDecision event_type.
Proof. solve_decision. Defined.

Definition event_type_code (c : event_type) : nat :=
  match c with
  | BaseEvent_cls => 0 | AlertEvent_cls => 1 | OrderEvent_cls => 2 | RiskEvent_cls => 3
  end%nat.

Definition event_type_of_code (n : nat) : option event_type :=
  match n with
  | 0 => Some BaseEvent_cls | 1 => Some AlertEvent_cls
  | 2 => Some OrderEvent_cls | 3 => Some RiskEvent_cls
  | _ => None
  end%nat.

#[global] Instance event_type_countable : Countable event_type.
Proof.
  apply (inj_countable event_type_code event_type_of_code).
  intros []; reflexivity.
Defined.

Section EventBus.
(** The bus is generic in what a handler is and in the state handlers
    act on: [invoke h ev w] runs handler [h] on [ev] and says how the
    call ended; [print_error] is the [print] of the except clause. *)
Context {W H : Type}.
Variable invoke : H -> event -> W -> W * outcome.
Variable print_error : H -> exn -> W -> W.

(** [self._subscribers.setdefault(event_cls, []).append(handler)] *)
Definition subscribe
    (subs : gmap event_type (list H)) (event_cls : event_type) (handler : H)
    : gmap event_type (list H) :=
  <[event_cls := default [] (subs !! event_cls) ++ [handler]]> subs.

(** [list(self._subscribers.get(type(event), []))] *)
Definition handlers_for (subs : gmap event_type (list H)) (ev : event) : list H :=
  default [] (subs !! type_of ev).

(** The [for handler in handlers] loop with its try/except.  Next to the
    state it returns how the loop ended and, as a ghost log, the
    handlers it called, in call order. *)
Fixpoint dispatch (handlers : list H) (ev : event) (w : W) : W * outcome * list H :=
  match handlers with
  | [] => (w, Returned, [])
  | handler :: rest =>
      let w' :=
        match invoke handler ev w with
        | (w1, Returned) => w1
        | (w1, Raised exc) => print_error handler exc w1
        end in
      let '(w2, o, called) := dispatch rest ev w' in
      (w2, o, handler :: called)
  end.

Definition publish (subs : gmap event_type (list H)) (ev : event) (w : W)
    : W * outcome * list H :=
  dispatch (handlers_for subs ev) ev w.

(** The state one handler call leaves, fault included. *)
Definition after_handler (ev : event) (w : W) (handler : H) : W :=
  match invoke handler ev w with
  | (w1, Returned) => w1
  | (w1, Raised exc) => print_error handler exc w1
  end.
End EventBus.

(* ===================================================================== *)
(** ** execution.py and the wiring of main.py *)
(* ===================================================================== *)

(** The fields of an [ExecutionManager] that are its own.  [ts_client] is
    the brokerage collaborator, [ts_client.submit_bracket_order]: the
    broker's response, or the exception raised.  The bus and the risk
    manager it also refers to are shared, and live in the [World]. *)
Record ExecutionManager : Type := {
  ts_client : TradeSignal -> Z -> result pyval;
  quantity : Z
}.

(** The callables that get subscribed to the bus. *)
Inductive handler : Type :=
| H_handle_alert (self : ExecutionManager)  (* the bound method, subscribed by __init__ *)
| H_on_risk                                 (* on_risk, a closure over [controls] *)
| H_on_order.                               (* on_order, a closure over [controls] *)

(** What the attribute [bus.publish] resolves to: the method of the class,
    or the instance attribute that [bus.publish = wrap_publish] installs. *)
Inductive publish_impl : Type :=
| EventBus_publish
| wrap_publish_attr.

(** What the process writes: the [print] of the bus's except clause and the
    [logging.warning] of the kill switch. *)
Inductive log_line : Type :=
| HandlerError (h : handler) (exc : exn)
| TradingDisabled (sym : string).

(** The shared objects [main_async] creates.  [clock] is what
    [datetime.utcnow()] reads.  [published] is a ghost log: the events
    that reached [EventBus.publish], oldest first. *)
Record World : Type := {
  controls : EmergencyControls;
  _subscribers : gmap event_type (list handler);
  publish_attr : publish_impl;
  clock : Z;
  output : list log_line;
  published : list event
}.

Definition risk_of (w : World) : RiskManager := risk_manager (controls w).

Definition set_controls (w : World) (c : EmergencyControls) : World :=
  {| controls := c; _subscribers := _subscribers w; publish_attr := publish_attr w;
     clock := clock w; output := output w; published := published w |}.

Definition set_risk (w : World) (rm : RiskManager) : World :=
  set_controls w
    {| risk_manager := rm;
       max_consecutive_failures := max_consecutive_failures (controls w);
       trading_enabled := trading_enabled (controls w);
       consecutive_failures := consecutive_failures (controls w) |}.

Definition set_publish_attr (w : World) (impl : publish_impl) : World :=
  {| controls := controls w; _subscribers := _subscribers w; publish_attr := impl;
     clock := clock w; output := output w; published := published w |}.

Definition write (line : log_line) (w : World) : World :=
  {| controls := controls w; _subscribers := _subscribers w; publish_attr := publish_attr w;
     clock := clock w; output := output w ++ [line]; published := published w |}.

Definition note_published (ev : event) (w : World) : World :=
  {| controls := controls w; _subscribers := _subscribers w; publish_attr := publish_attr w;
     clock := clock w; output := output w; published := published w ++ [ev] |}.

(** [event.signal]; a [BaseEvent] has no such attribute. *)
Definition event_signal (ev : event) : result TradeSignal :=
  match ev with
  | BaseEvent _ => Err (AttributeError "signal")
  | AlertEvent _ s _ | OrderEvent _ s _ | RiskEvent _ s _ _ => Ok s
  end.

(** The response of an [OrderEvent] published after a failed submission. *)
Definition error_response (exc : exn) : pyval := PDict [("error", PStr (str exc))].

(** [ExecutionManager.handle_alert].  [publish] is what [self.bus.publish]
    resolves to when the call is made. *)
Definition handle_alert
    (self : ExecutionManager) (publish : event -> World -> World * outcome)
    (ev : event) (w : World) : World * outcome :=
  match event_signal ev with
  | Err exc => (w, Raised exc)
  | Ok signal =>
      let '(accepted, why) := should_accept (risk_of w) signal (quantity self) in
      match publish (RiskEvent (clock w) signal accepted why) w with
      | (w1, Raised exc) => (w1, Raised exc)
      | (w1, Returned) =>
          if negb accepted then (w1, Returned)
          else
            match ts_client self signal (quantity self) with
            | Err exc =>
                (* on failure, still publish an order event with error details *)
                publish (OrderEvent (clock w1) signal (error_response exc)) w1
            | Ok response =>
                let w2 := set_risk w1 (register_trade (risk_of w1) signal (quantity self)) in
                publish (OrderEvent (clock w2) signal response) w2
            end
      end
  end.

(** [on_risk]: reset the failure counter on accepted trades. *)
Definition on_risk (ev : event) (w : World) : World * outcome :=
  match ev with
  | RiskEvent _ _ accepted _ =>
      if accepted then (set_controls w (reset_failures (controls w)), Returned)
      else (w, Returned)
  | _ => (w, Raised (AttributeError "accepted"))
  end.

(** [isinstance(event.response, dict) and event.response.get("error")] *)
Definition response_has_error (response : pyval) : bool :=
  match response with
  | PDict items => truthy (dict_get items "error")
  | _ => false
  end.

(** [on_order]: record a failure if the response contains an error. *)
Definition on_order (ev : event) (w : World) : World * outcome :=
  match ev with
  | OrderEvent _ _ response =>
      if response_has_error response
      then (set_controls w (record_failure (controls w)), Returned)
      else (set_controls w (reset_failures (controls w)), Returned)
  | _ => (w, Raised (AttributeError "response"))
  end.

Definition invoke_handler
    (publish : event -> World -> World * outcome) (h : handler) (ev : event) (w : World)
    : World * outcome :=
  match h with
  | H_handle_alert self => handle_alert self publish ev w
  | H_on_risk => on_risk ev w
  | H_on_order => on_order ev w
  end.

Definition print_handler_error (h : handler) (exc : exn) (w : World) : World :=
  write (HandlerError h exc) w.

Definition is_alert (ev : event) : bool :=
  match ev with AlertEvent _ _ _ => true | _ => false end.

(** [wrap_publish], the kill switch of main.  [publish] is what the name
    [bus.publish] in its last line resolves to when that line runs. *)
Definition wrap_publish
    (publish : event -> World -> World * outcome) (ev : event) (w : World)
    : World * outcome :=
  if is_alert ev && negb (is_enabled (controls w)) then
    match event_signal ev with
    | Ok signal => (write (TradingDisabled (symbol signal)) w, Returned)
    | Err exc => (w, Raised exc)
    end
  else publish ev w.

(** A call of [bus.publish(event)], by whoever holds the bus.  The
    attribute is looked up at each call; [depth] is the number of nested
    calls the interpreter still allows before it raises RecursionError. *)
Fixpoint bus_publish (depth : nat) (ev : event) (w : World) : World * outcome :=
  match depth with
  | O => (w, Raised RecursionError)
  | S d =>
      match publish_attr w with
      | EventBus_publish =>
          fst (publish (invoke_handler (bus_publish d)) print_handler_error
                 (_subscribers w) ev (note_published ev w))
      | wrap_publish_attr => wrap_publish (bus_publish d) ev w
      end
  end.

(** The interpreter's default recursion limit. *)
Definition recursion_limit : nat := 1000.

(** [DiscordMonitor.on_message], once the message has parsed. *)
Definition on_message (signal : TradeSignal) (content : string) (w : World)
    : World * outcome :=
  bus_publish recursion_limit (AlertEvent (clock w) signal content) w.

(** Successive alerts; an exception that leaves [on_message] is logged by
    the chat client and the next message is handled as usual. *)
Definition on_messages (alerts : list (TradeSignal * string)) (w : World) : World :=
  fold_left (fun w a => fst (on_message (fst a) (snd a) w)) alerts w.

(** The subscriptions main makes, in its order. *)
Definition main_subscribers (exec_manager : ExecutionManager) : gmap event_type (list handler) :=
  let bus := subscribe ∅ AlertEvent_cls (H_handle_alert exec_manager) in
  let bus := subscribe bus RiskEvent_cls H_on_risk in
  subscribe bus OrderEvent_cls H_on_order.

(** The objects of [main_async] up to, and without, the line
    [bus.publish = wrap_publish]. *)
Definition main_unpatched
    (risk_manager : RiskManager) (exec_manager : ExecutionManager)
    (max_failures : Z) (now : Z) : World :=
  {| controls := EmergencyControls_init risk_manager max_failures;
     _subscribers := main_subscribers exec_manager;
     publish_attr := EventBus_publish;
     clock := now;
     output := [];
     published := [] |}.

(** The objects of [main_async] when the monitor starts. *)
Definition main_async
    (risk_manager : RiskManager) (exec_manager : ExecutionManager)
    (max_failures : Z) (now : Z) : World :=
  set_publish_attr (main_unpatched risk_manager exec_manager max_failures now)
    wrap_publish_attr.

(** The execution manager on a bus of its own, as [ExecutionManager.__init__]
    leaves it: the only subscription is its own. *)
Definition coordinator_alone
    (risk_manager : RiskManager) (exec_manager : ExecutionManager)
    (max_failures : Z) (now : Z) : World :=
  {| controls := EmergencyControls_init risk_manager max_failures;
     _subscribers := subscribe ∅ AlertEvent_cls (H_handle_alert exec_manager);
     publish_attr := EventBus_publish;
     clock := now;
     output := [];
     published := [] |}.

(** Runs of the risk manager in which a trade is registered only right
    after [should_accept] has accepted it. *)
Inductive risk_op : Type :=
| Trade (signal : TradeSignal) (quantity : Z)   (* should_accept, then register_trade if accepted *)
| CloseAll.

Definition risk_step (rm : RiskManager) (op : risk_op) : RiskManager :=
  match op with
  | Trade signal quantity =>
      if fst (should_accept rm signal quantity) then register_trade rm signal quantity
      else rm
  | CloseAll => close_all rm
  end.

Definition risk_run (ops : list risk_op) (rm : RiskManager) : RiskManager :=
  fold_left risk_step ops rm.

(* ===================================================================== *)
(** ** datetime.date *)
(* ===================================================================== *)

Definition is_leap (y : Z) : bool :=
  (y mod 4 =? 0) && (negb (y mod 100 =? 0) || (y mod 400 =? 0)).

Definition days_in_month (y m : Z) : Z :=
  if m =? 2 then (if is_leap y then 29 else 28)
  else if (m =? 4) || (m =? 6) || (m =? 9) || (m =? 11) then 30
  else 31.

(** [date(year, month, day)]: ValueError outside the calendar. *)
Definition mk_date (y m d : Z) : result date :=
  if (1 <=? y) && (y <=? 9999) && (1 <=? m) && (m <=? 12)
     && (1 <=? d) && (d <=? days_in_month y m)
  then Ok (Date y m d)
  else Err (ValueError "date value out of range").


(** [a <= b] and [a < b] on dates. *)
Definition date_leb (a b : date) : bool :=
  (year a <? year b)
  || ((year a =? year b)
      && ((month a <? month b) || ((month a =? month b) && (day a <=? day b)))).

Definition date_ltb (a b : date) : bool := negb (date_leb b a).

(* ===================================================================== *)
(** ** String helpers ([str.split], [int], [float], [upper], [strip]) *)
(* ===================================================================== *)

Definition code (c : ascii) : Z := Z.of_nat (nat_of_ascii c).

Definition is_digit (c : ascii) : bool := (48 <=? code c) && (code c <=? 57).

(** [s.split(sep)] for a one-character separator. *)
Fixpoint split (sep : ascii) (s : string) : list string :=
  match s with
  | EmptyString => [EmptyString]
  | String c rest =>
      if Ascii.eqb c sep then EmptyString :: split sep rest
      else match split sep rest with
           | [] => [String c EmptyString]
           | part :: parts => String c part :: parts
           end
  end.

Fixpoint digits_value (acc : Z) (s : string) : option Z :=
  match s with
  | EmptyString => Some acc
  | String c rest =>
      if is_digit c then digits_value (10 * acc + (code c - 48)) rest else None
  end.

Definition digits (s : string) : option Z :=
  match s with
  | EmptyString => None
  | _ => digits_value 0 s
  end.

(** [int(s)] on the strings the expiry token can give: digits with an
    optional minus sign; anything else there is a ValueError. *)
Definition py_int (s : string) : result Z :=
  match s with
  | String "-"%char rest =>
      match digits rest with
      | Some v => Ok (- v)
      | None => Err (ValueError "invalid literal for int()")
      end
  | _ =>
      match digits s with
      | Some v => Ok v
      | None => Err (ValueError "invalid literal for int()")
      end
  end.

(** [float(s)] on the price tokens, [digits] or [digits.digits]. *)
Definition py_float (s : string) : result Q :=
  match split "."%char s with
  | [ip] =>
      match digits ip with
      | Some v => Ok (inject_Z v)
      | None => Err (ValueError "could not convert string to float")
      end
  | [ip; fp] =>
      match digits ip, digits fp with
      | Some v, Some f =>
          Ok (Qred (inject_Z v + inject_Z f / inject_Z (10 ^ Z.of_nat (String.length fp))))
      | _, _ => Err (ValueError "could not convert string to float")
      end
  | _ => Err (ValueError "could not convert string to float")
  end.

Definition upper_char (c : ascii) : ascii :=
  if (97 <=? code c) && (code c <=? 122)
  then ascii_of_nat (nat_of_ascii c - 32) else c.

Definition lower_char (c : ascii) : ascii :=
  if (65 <=? code c) && (code c <=? 90)
  then ascii_of_nat (nat_of_ascii c + 32) else c.

Fixpoint map_string (f : ascii -> ascii) (s : string) : string :=
  match s with
  | EmptyString => EmptyString
  | String c rest => String (f c) (map_string f rest)
  end.

Definition upper : string -> string := map_string upper_char.
Definition lower : string -> string := map_string lower_char.

Definition is_space (c : ascii) : bool :=
  (code c =? 32) || ((9 <=? code c) && (code c <=? 13)).

Fixpoint lstrip (s : string) : string :=
  match s with
  | String c rest => if is_space c then lstrip rest else s
  | EmptyString => EmptyString
  end.

Fixpoint rev_string (acc s : string) : string :=
  match s with
  | EmptyString => acc
  | String c rest => rev_string (String c acc) rest
  end.

Definition strip (s : string) : string :=
  rev_string EmptyString (lstrip (rev_string EmptyString (lstrip s))).

Definition startswith (s : string) (c : ascii) : bool :=
  match s with
  | String c0 _ => Ascii.eqb c0 c
  | EmptyString => false
  end.

(* ===================================================================== *)
(** ** signal_parser.py *)
(* ===================================================================== *)

(** [exc] is an instance of the class named [cls]. *)
Definition isinstance (exc : exn) (cls : string) : bool := String.eqb (exn_class exc) cls.

(** The validators of the model, in field order. *)
Definition _upper_symbol (v : string) : result string := Ok (upper v).

Definition _normalize_option_type (v : string) : result string :=
  let v := lower (strip v) in
  if startswith v "c" then Ok "Call"
  else if startswith v "p" then Ok "Put"
  else Err (ValueError "option_type must start with 'C' or 'P'").

Definition _future_date (today v : date) : result date :=
  if date_leb v today then Err (ValueError "expiration_date must be in the future")
  else Ok v.

(** [TradeSignal(...)]: the fields are validated; a failure is a
    ValidationError, which is a ValueError. *)
Definition TradeSignal_init (today : date)
    (sym : string) (strike_ : Q) (otype : string) (expiration : date)
    (entry stop : Q) (raw : string) : result TradeSignal :=
  (try! sym := _upper_symbol sym in
   try! otype := _normalize_option_type otype in
   try! expiration := _future_date today expiration in
   Ok {| symbol := sym; strike := strike_; option_type := otype;
         expiration_date := expiration; entry_price := entry;
         stop_price := stop; raw_message := raw |})%result.

(** The named groups of the alert pattern. *)
Record groups : Type := {
  g_symbol : string;
  g_strike : string;
  g_otype : string;
  g_expiry : string;
  g_entry : string;
  g_stop : string
}.

(** The date still to be rolled from the [MM/DD] and [MM/DD/YY] forms:
    the except branch of [_normalize_expiration]. *)
Definition expiry_from_parts (today : date) (expiry_str : string) : result date :=
  (match split "/" expiry_str with
   | [m; d] =>
       try! month_ := py_int m in
       try! day_ := py_int d in
       mk_date (year today) month_ day_
   | [m; d; y] =>
       try! month_ := py_int m in
       try! day_ := py_int d in
       try! year_ := py_int y in
       mk_date (if year_ <? 100 then year_ + 2000 else year_) month_ day_
   | _ => Err (ValueError "Invalid expiration format")
   end)%result.

(** The roll: [if dt <= today: dt = date(dt.year + 1, dt.month, dt.day)]. *)
Definition roll_forward (today dt : date) : result date :=
  if date_leb dt today then mk_date (year dt + 1) (month dt) (day dt)
  else Ok dt.

Section Parser.
(** Two library calls are taken as they are.
    [date_parser_parse s] is [dateutil.parser.parse(s, fuzzy=False).date()]:
    the date read, or the exception raised.
    [search m] is the cleaning of the message followed by [re.search] of
    the alert pattern: the named groups, or no match. *)
Variable date_parser_parse : string -> result date.
Variable search : string -> option groups.

(** The date the token denotes, before the roll. *)
Definition expiry_date (today : date) (expiry_str : string) : result date :=
  match date_parser_parse expiry_str with
  | Ok dt => Ok dt
  | Err exc =>
      if isinstance exc "ValueError" || isinstance exc "OverflowError"
      then expiry_from_parts today expiry_str
      else Err exc
  end.

Definition _normalize_expiration (today : date) (expiry_str : string) : result date :=
  (try! dt := expiry_date today expiry_str in roll_forward today dt)%result.

(** [except ValueError as exc: raise SignalParserError(str(exc))] *)
Definition reraise_value_error {A : Type} (r : result A) : result A :=
  match r with
  | Err exc => if isinstance exc "ValueError" then Err (SignalParserError (str exc)) else Err exc
  | ok => ok
  end.

(** [except Exception as exc: raise SignalParserError(str(exc))] *)
Definition reraise_any {A : Type} (r : result A) : result A :=
  match r with
  | Err exc => Err (SignalParserError (str exc))
  | ok => ok
  end.

Definition parse_discord_message (today : date) (message : string) : result TradeSignal :=
  match search message with
  | None => Err (SignalParserError "Message does not match expected pattern")
  | Some g =>
      (try! expiration := reraise_value_error (_normalize_expiration today (g_expiry g)) in
       reraise_any
         (try! strike_ := py_float (g_strike g) in
          try! entry := py_float (g_entry g) in
          try! stop := py_float (g_stop g) in
          TradeSignal_init today (g_symbol g) strike_ (g_otype g) expiration
            entry stop message))%result
  end.
End Parser.

(* ===================================================================== *)
(** ** Inputs of the scenarios *)
(* ===================================================================== *)

(** The alert of the parser's docstring: entry 1.29, stop 1.00. *)
Definition alert_signal : TradeSignal :=
  {| symbol := "AAPL"; strike := 250; option_type := "Call";
     expiration_date := Date 2027 10 10;
     entry_price := 129 # 100; stop_price := 1;
     raw_message := "AAPL - $250 CALLS EXPIRATION 10/10 $1.29 STOP LOSS AT $1.00" |}.


(** An alert whose notional risk is 99.00, and one whose is 500.00. *)
Definition near_cap_signal : TradeSignal :=
  {| symbol := "MSFT"; strike := 400; option_type := "Put";
     expiration_date := Date 2027 10 10;
     entry_price := 199 # 100; stop_price := 1;
     raw_message := "MSFT - $400 PUTS EXPIRATION 10/10 $1.99 STOP LOSS AT $1.00" |}.

Definition over_cap_signal : TradeSignal :=
  {| symbol := "TSLA"; strike := 300; option_type := "Call";
     expiration_date := Date 2027 10 10;
     entry_price := 6; stop_price := 1;
     raw_message := "TSLA - $300 CALLS EXPIRATION 10/10 $6.00 STOP LOSS AT $1.00" |}.

(** A brokerage whose every submission raises. *)
Definition failing_broker : ExecutionManager :=
  {| ts_client := fun _ _ => Err {| exn_class := "HTTPError"; str := "503 Server Error" |};
     quantity := 1 |}.

(* ===================================================================== *)
(** ** Auxiliary notions used in the statements and proofs *)
(* ===================================================================== *)




(** Three calls of [f]. *)
Definition thrice {A : Type} (f : A -> A) (a : A) : A := f (f (f a)).

(** The three alerts of the scenario. *)
Definition three_alerts : list (TradeSignal * string) :=
  [ (alert_signal, raw_message alert_signal);
    (alert_signal, raw_message alert_signal);
    (alert_signal, raw_message alert_signal) ].





(** The failures in a row at the end of a run of operations on the
    emergency controls, and the longest such streak of the run: a reset
    ends a streak, a read does not. *)
Definition streak_step (st : Z * Z) (op : controls_op) : Z * Z :=
  match op with
  | OpRecordFailure => (fst st + 1, Z.max (snd st) (fst st + 1))
  | OpResetFailures => (0, snd st)
  | OpIsEnabled => st
  end.

Definition streaks (ops : list controls_op) : Z * Z := fold_left streak_step ops (0, 0).
Definition current_streak (ops : list controls_op) : Z := fst (streaks ops).
Definition longest_streak (ops : list controls_op) : Z := snd (streaks ops).

(* ===================================================================== *)
(** ** discord_monitor.py *)
(* ===================================================================== *)

(** What [on_message] reads of a [discord.Message]. *)
Record Message : Type := {
  author_bot : bool;      (* message.author.bot *)
  channel_id : Z;         (* message.channel.id *)
  content : string        (* message.content *)
}.

(** [DiscordMonitor.on_message].  [self_channel_id] is [self.channel_id];
    the parser's two library calls and today's date are passed along.  The
    [logger.debug] of the except clause writes nothing at the INFO level
    that main configures. *)
Definition DiscordMonitor_on_message
    (date_parser_parse : string -> result date) (search : string -> option groups)
    (today : date) (self_channel_id : Z) (message : Message) (w : World)
    : World * outcome :=
  if author_bot message then (w, Returned)
  else if negb (channel_id message =? self_channel_id) then (w, Returned)
  else
    match parse_discord_message date_parser_parse search today (content message) with
    | Err exc =>
        if isinstance exc "SignalParserError" then (w, Returned)
        else (w, Raised exc)
    | Ok signal => on_message signal (content message) w
    end.

(** The messages of a channel, one after the other; the chat client logs
    an exception that leaves [on_message] and goes on. *)
Definition monitor_run
    (date_parser_parse : string -> result date) (search : string -> option groups)
    (today : date) (self_channel_id : Z) (messages : list Message) (w : World) : World :=
  fold_left
    (fun w m =>
       fst (DiscordMonitor_on_message date_parser_parse search today self_channel_id m w))
    messages w.

(** How many times a character occurs in a string, and whether a string
    holds a lower-case ASCII letter. *)
Fixpoint count_char (c : ascii) (s : string) : nat :=
  match s with
  | EmptyString => 0%nat
  | String c0 rest => ((if Ascii.eqb c0 c then 1 else 0) + count_char c rest)%nat
  end.

Definition is_lower (c : ascii) : bool := (97 <=? code c) && (code c <=? 122).

Fixpoint has_lower (s : string) : bool :=
  match s with
  | EmptyString => false
  | String c rest => is_lower c || has_lower rest
  end.

(* ===================================================================== *)
(** ** tradestation_client.py: the bracket order *)
(* ===================================================================== *)

Definition digit_char (d : Z) : ascii := ascii_of_nat (48 + Z.to_nat (d mod 10)).

(** The [k] low decimal digits of [n], the most significant first: what
    a zero-padded field of width [k] shows of a number it can hold. *)
Fixpoint fixed_digits (k : nat) (n : Z) : string :=
  match k with
  | O => EmptyString
  | S k' => String.append (fixed_digits k' (n / 10)) (String (digit_char n) EmptyString)
  end.

(** The number of decimal digits of a natural number (1 for 0). *)
Fixpoint ndigits_aux (fuel : nat) (n : Z) : nat :=
  match fuel with
  | O => 1%nat
  | S fuel' => if n <? 10 then 1%nat else S (ndigits_aux fuel' (n / 10))
  end.

Definition ndigits (n : Z) : nat := ndigits_aux (Z.to_nat n) n.

(** [exp_dt.strftime("%y")] and [exp_dt.strftime("%m%d")] *)
Definition strftime_y (dt : date) : string := fixed_digits 2 (year dt).
Definition strftime_md (dt : date) : string :=
  String.append (fixed_digits 2 (month dt)) (fixed_digits 2 (day dt)).

(** [f"{x:08.3f}"]: the value rounded to three decimals, written with its
    sign, the integer part, a point and three decimals, the integer part
    padded with zeros up to a total width of eight. *)
Definition format_08_3f (x : Q) : string :=
  let thousandths := round_half_even (Qabs x * 1000) in
  let int_part := thousandths / 1000 in
  let negative := Qltb x 0 in
  let width := if negative then 3%nat else 4%nat in
  String.append (if negative then "-" else "")
    (String.append (fixed_digits (Nat.max width (ndigits int_part)) int_part)
       (String "." (fixed_digits 3 thousandths))).

(** [s.replace(c, "")] for a one-character [c]. *)
Fixpoint remove_char (c : ascii) (s : string) : string :=
  match s with
  | EmptyString => EmptyString
  | String c0 rest => if Ascii.eqb c0 c then remove_char c rest
                      else String c0 (remove_char c rest)
  end.

Fixpoint spaces (n : nat) : string :=
  match n with
  | O => EmptyString
  | S n' => String " " (spaces n')
  end.

(** [s.ljust(width)] *)
Definition ljust (s : string) (width : nat) : string :=
  String.append s (spaces (width - String.length s)).

(** ["C" if option_type.lower().startswith("c") else "P"] *)
Definition type_code (option_type_ : string) : string :=
  if startswith (lower option_type_) "c" then "C" else "P".

Definition strike_formatted (strike_ : Q) : string :=
  remove_char "." (format_08_3f strike_).

(** The symbol of the option, as [submit_bracket_order] builds it. *)
Definition option_symbol (signal : TradeSignal) : string :=
  String.append (ljust (symbol signal) 6)
    (String.append (strftime_y (expiration_date signal))
       (String.append (strftime_md (expiration_date signal))
          (String.append (type_code (option_type signal))
             (strike_formatted (strike signal))))).

(** One order of the payload: the entries of its dictionary; the price is
    under "LimitPrice" for the primary order, under "StopPrice" for the
    secondary one. *)
Record Order : Type := {
  AccountKey : option string;
  Symbol : string;
  Quantity : Z;
  OrderAction : string;
  OrderType : string;
  price_key : string;
  price : Q;
  TimeInForce : string;
  Route : string
}.

(** The client: its account key, and [_request], the authenticated HTTP
    call, which returns the decoded body or raises. *)
Record TradeStationClient : Type := {
  account_key : option string;
  _request : string -> string -> list Order -> result pyval
}.

Definition bracket_orders
    (self : TradeStationClient) (signal : TradeSignal) (quantity_ : Z) : list Order :=
  let primary :=
    {| AccountKey := account_key self; Symbol := option_symbol signal;
       Quantity := quantity_; OrderAction := "Buy"; OrderType := "Limit";
       price_key := "LimitPrice"; price := entry_price signal;
       TimeInForce := "Day"; Route := "AUTO" |} in
  let secondary :=
    {| AccountKey := account_key self; Symbol := option_symbol signal;
       Quantity := quantity_; OrderAction := "Sell"; OrderType := "Stop";
       price_key := "StopPrice"; price := stop_price signal;
       TimeInForce := "Day"; Route := "AUTO" |} in
  [primary; secondary].

(** [TradeStationClient.submit_bracket_order] *)
Definition submit_bracket_order
    (self : TradeStationClient) (signal : TradeSignal) (quantity_ : Z) : result pyval :=
  _request self "POST" "/order/groups" (bracket_orders self signal quantity_).

(* ===================================================================== *)
(** ** main.py: load_config's substitution of environment variables *)
(* ===================================================================== *)

(** [os.getenv(var, default)] on the environment [env]. *)
Definition getenv (env : gmap string string) (var default_ : string) : string :=
  default default_ (env !! var).

(** [s] begins with the two characters [c1 c2]: what follows them. *)
Definition starts_with_2 (c1 c2 : ascii) (s : string) : option string :=
  match s with
  | String a (String b after) => if Ascii.eqb a c1 && Ascii.eqb b c2 then Some after else None
  | _ => None
  end.

(** [expr.split(":-", 1)] when [":-" in expr]: what stands before the
    first ":-" and what stands after it; [None] when there is no ":-". *)
Fixpoint split_default (expr : string) : option (string * string) :=
  match expr with
  | EmptyString => None
  | String c rest =>
      match starts_with_2 ":" "-" expr with
      | Some after => Some (EmptyString, after)
      | None =>
          match split_default rest with
          | Some (var, default_) => Some (String c var, default_)
          | None => None
          end
      end
  end.

(** [replacer], on the text between the braces. *)
Definition replacer (env : gmap string string) (expr : string) : string :=
  match split_default expr with
  | Some (var, default_) => getenv env var default_
  | None => getenv env expr ""
  end.

(** The characters up to the first closing brace, and what follows it. *)
Fixpoint take_until_brace (s : string) : option (string * string) :=
  match s with
  | EmptyString => None
  | String c rest =>
      if Ascii.eqb c "}" then Some (EmptyString, rest)
      else match take_until_brace rest with
           | Some (body, after) => Some (String c body, after)
           | None => None
           end
  end.

(** [pattern.sub(replacer, value)] for the pattern [\$\{([^}]+)\}]: from
    left to right, each "${" followed by at least one character other than
    "}" and then by "}" is replaced, and the scan goes on after that brace;
    the replacement is not scanned again.  [fuel] bounds the number of
    steps; the length of the string is enough. *)
Fixpoint substitute_str_aux (fuel : nat) (env : gmap string string) (s : string) : string :=
  match fuel with
  | O => s
  | S fuel' =>
      match s with
      | EmptyString => EmptyString
      | String c rest =>
          match starts_with_2 "$" "{" s with
          | Some inner =>
              match take_until_brace inner with
              | Some (String b body, after) =>
                  String.append (replacer env (String b body))
                    (substitute_str_aux fuel' env after)
              | _ => String c (substitute_str_aux fuel' env rest)
              end
          | None => String c (substitute_str_aux fuel' env rest)
          end
      end
  end.

Definition substitute_str (env : gmap string string) (s : string) : string :=
  substitute_str_aux (String.length s) env s.

(** A value [yaml.safe_load] returns: a string, a mapping, a sequence, or
    a scalar of another type. *)
Inductive yaml : Type :=
| YStr (s : string)
| YDict (items : yaml_items)
| YList (elems : yaml_elems)
| YOther (a : pyatom)
with yaml_items : Type :=
| ItemsNil
| ItemsCons (key : string) (value : yaml) (rest : yaml_items)
with yaml_elems : Type :=
| ElemsNil
| ElemsCons (value : yaml) (rest : yaml_elems).

(** [substitute]: strings are substituted, mappings and sequences are
    traversed (the keys are kept), anything else is returned as it is. *)
Fixpoint substitute (env : gmap string string) (value : yaml) : yaml :=
  match value with
  | YStr s => YStr (substitute_str env s)
  | YDict items => YDict (substitute_items env items)
  | YList elems => YList (substitute_elems env elems)
  | YOther a => YOther a
  end
with substitute_items (env : gmap string string) (items : yaml_items) : yaml_items :=
  match items with
  | ItemsNil => ItemsNil
  | ItemsCons k v rest => ItemsCons k (substitute env v) (substitute_items env rest)
  end
with substitute_elems (env : gmap string string) (elems : yaml_elems) : yaml_elems :=
  match elems with
  | ElemsNil => ElemsNil
  | ElemsCons v rest => ElemsCons (substitute env v) (substitute_elems env rest)
  end.

(** Whether a character occurs in a string, and in some string of a value. *)
Definition has_char (c : ascii) (s : string) : bool := negb (Nat.eqb (count_char c s) 0).

Fixpoint yaml_has_char (c : ascii) (value : yaml) : bool :=
  match value with
  | YStr s => has_char c s
  | YDict items => items_have_char c items
  | YList elems => elems_have_char c elems
  | YOther _ => false
  end
with items_have_char (c : ascii) (items : yaml_items) : bool :=
  match items with
  | ItemsNil => false
  | ItemsCons _ v rest => yaml_has_char c v || items_have_char c rest
  end
with elems_have_char (c : ascii) (elems : yaml_elems) : bool :=
  match elems with
  | ElemsNil => false
  | ElemsCons v rest => yaml_has_char c v || elems_have_char c rest
  end.

(** The keys of a mapping, in order. *)
Fixpoint item_keys (items : yaml_items) : list string :=
  match items with
  | ItemsNil => []
  | ItemsCons k _ rest => k :: item_keys rest
  end.

Fixpoint elems_length (elems : yaml_elems) : nat :=
  match elems with
  | ElemsNil => 0%nat
  | ElemsCons _ rest => S (elems_length rest)
  end.

(* ===================================================================== *)
(** ** tradestation_client.py: the access token *)
(* ===================================================================== *)

Definition RuntimeError (msg : string) : exn := {| exn_class := "RuntimeError"; str := msg |}.
Definition AssertionError : exn := {| exn_class := "AssertionError"; str := "" |}.

(** The four settings the refresh needs; each is a string or [None]. *)
Record Credentials : Type := {
  client_id : option string;
  client_secret : option string;
  refresh_token : option string;
  redirect_uri : option string
}.

(** Truth value of an [Optional[str]]. *)
Definition truthy_str (o : option string) : bool :=
  match o with
  | Some s => negb (String.eqb s "")
  | None => false
  end.

(** What [float(payload.get("expires_in", 0))] finds: no entry, a number
    of seconds, or a value that [float] refuses with the given exception. *)
Inductive expiry_field : Type :=
| ExpiresAbsent
| ExpiresIn (seconds : Q)
| ExpiresInvalid (exc : exn).

(** The decoded body of the token endpoint's answer. *)
Record TokenPayload : Type := {
  payload_access_token : option string;   (* payload.get("access_token") *)
  payload_expires_in : expiry_field
}.

(** The token state of the client; times are seconds, as [time.time()]
    gives them. *)
Record TokenCache : Type := {
  _access_token : option string;
  _token_expires_at : Q
}.

(** The state [__init__] sets. *)
Definition TokenCache_init : TokenCache :=
  {| _access_token := None; _token_expires_at := 0 |}.

(** [_refresh_access_token].  [post] is the outcome of [requests.post]
    followed by [raise_for_status] and [json], the body read as a mapping;
    [now] is the [time.time()] read after it. *)
Definition _refresh_access_token
    (creds : Credentials) (post : result TokenPayload) (now : Q) (cache : TokenCache)
    : TokenCache * outcome :=
  if negb (truthy_str (client_id creds) && truthy_str (client_secret creds)
           && truthy_str (refresh_token creds) && truthy_str (redirect_uri creds))
  then (cache, Raised (RuntimeError "TradeStation client missing OAuth credentials"))
  else
    match post with
    | Err exc => (cache, Raised exc)
    | Ok payload =>
        let with_token := {| _access_token := payload_access_token payload;
                             _token_expires_at := _token_expires_at cache |} in
        match payload_expires_in payload with
        | ExpiresInvalid exc => (with_token, Raised exc)
        | ExpiresAbsent =>
            ({| _access_token := payload_access_token payload;
                _token_expires_at := (now + 0 - 60)%Q |}, Returned)
        | ExpiresIn seconds =>
            ({| _access_token := payload_access_token payload;
                _token_expires_at := (now + seconds - 60)%Q |}, Returned)
        end
    end.

(** [_get_access_token].  [now] is the time read by the test, [later] the
    one read by the refresh if there is one. *)
Definition _get_access_token
    (creds : Credentials) (post : result TokenPayload) (now later : Q) (cache : TokenCache)
    : TokenCache * result string :=
  let '(cache', o) :=
    if negb (truthy_str (_access_token cache)) || Qle_bool (_token_expires_at cache) now
    then _refresh_access_token creds post later cache
    else (cache, Returned) in
  match o with
  | Raised exc => (cache', Err exc)
  | Returned =>
      match _access_token cache' with
      | None => (cache', Err AssertionError)
      | Some token => (cache', Ok token)
      end
  end.

(* ===================================================================== *)
(** * Properties *)
(* ===================================================================== *)

(** ** Floats *)

Lemma Qltb_lt (a b : Q) : Qltb a b = true <-> (a < b)%Q.
Proof.
  unfold Qltb. rewrite negb_true_iff, <- not_true_iff_false, Qle_bool_iff.
  split; [apply Qnot_le_lt | apply Qlt_not_le].
Qed.

Lemma Qltb_ge (a b : Q) : Qltb a b = false <-> (b <= a)%Q.
Proof.
  unfold Qltb. rewrite negb_false_iff. apply Qle_bool_iff.
Qed.

Lemma Qle_bool_false (a b : Q) : Qle_bool a b = false <-> (b < a)%Q.
Proof.
  rewrite <- not_true_iff_false, Qle_bool_iff.
  split; [apply Qnot_le_lt | apply Qlt_not_le].
Qed.



Lemma round_half_even_Z (z : Z) : round_half_even (inject_Z z) = z.
Proof.
  unfold round_half_even. rewrite Qfloor_Z.
  replace (inject_Z z - inject_Z z ?= 1 # 2)%Q with Lt; [reflexivity |].
  symmetry. apply -> Qlt_alt. lra.
Qed.

Lemma round_half_even_comp (p q : Q) : (p == q)%Q -> round_half_even p = round_half_even q.
Proof.
  intros E. unfold round_half_even.
  rewrite (Qfloor_comp p q E).
  replace (p - inject_Z (Qfloor q) ?= 1 # 2)%Q with (q - inject_Z (Qfloor q) ?= 1 # 2)%Q;
    [reflexivity |].
  apply Qcompare_comp; [| reflexivity]. rewrite E. reflexivity.
Qed.

Lemma Qround2_eq (q : Q) : (Qround2 q == round_half_even (q * 100) # 100)%Q.
Proof.
  unfold Qround2. rewrite Qred_correct.
  unfold Qdiv, Qmult, Qinv, Qeq, inject_Z; simpl. lia.
Qed.





Lemma round2_zero : round2 Float.zero = Float.zero.
Proof. reflexivity. Qed.

(** ** Risk manager *)

Section RiskFacts.
Variables (rm : RiskManager) (signal : TradeSignal) (quantity : Z).

Let notional := _calculate_trade_risk rm signal quantity.




(** What an acceptance says: each of the three tests came out false. *)
Lemma should_accept_true :
  fst (should_accept rm signal quantity) = true ->
  (Z.of_nat (length (open_positions rm)) >=? max_open_positions rm) = false
  /\ gtb notional (max_risk_per_trade rm) = false
  /\ geb (add (round2 (total_recorded_risk rm)) (risk_contribution rm notional))
         (max_total_risk rm) = false.
Proof.
  unfold should_accept. fold notional.
  destruct (_ >=? _); [discriminate |].
  destruct (gtb notional _); [discriminate |].
  destruct (geb _ _); [discriminate |]. auto.
Qed.

Lemma register_trade_positions :
  open_positions (register_trade rm signal quantity)
  = open_positions rm
      ++ [ {| pos_symbol := symbol signal;
              risk := round2 (risk_contribution rm notional) |} ].
Proof. reflexivity. Qed.
End RiskFacts.

Lemma sum_snoc (xs : list float) (x : float) :
  Float.sum (xs ++ [x]) = add (Float.sum xs) x.
Proof. unfold Float.sum. rewrite fold_left_app. reflexivity. Qed.



















(** ** Emergency controls *)

Lemma record_failure_keeps_disabled (c : EmergencyControls) :
  trading_enabled c = false -> trading_enabled (record_failure c) = false.
Proof.
  intros H. unfold record_failure.
  destruct (_ >=? _); simpl; [reflexivity | exact H].
Qed.

Lemma controls_step_keeps_disabled (c : EmergencyControls) (op : controls_op) :
  trading_enabled c = false -> trading_enabled (controls_step c op) = false.
Proof.
  intros H. destruct op; simpl; auto using record_failure_keeps_disabled.
Qed.

Lemma controls_run_keeps_disabled (ops : list controls_op) :
  forall c, trading_enabled c = false -> trading_enabled (controls_run ops c) = false.
Proof.
  induction ops as [| op ops IH]; intros c H; simpl; [exact H |].
  apply IH, controls_step_keeps_disabled, H.
Qed.

(** C7: in a run of record_failure, reset_failures and is_enabled calls,
    once trading_enabled is false after some prefix of the run it is false
    after every longer prefix; no single operation takes it from false to
    true; and reset_failures sets the counter to 0 and changes neither
    trading_enabled nor any other field. *)
Theorem disabled_is_absorbing (c : EmergencyControls) (before after : list controls_op) :
  (trading_enabled (controls_run before c) = false ->
   trading_enabled (controls_run (before ++ after) c) = false)
  /\ (forall op, trading_enabled c = false -> trading_enabled (controls_step c op) = false)
  /\ (trading_enabled (reset_failures c) = trading_enabled c
      /\ consecutive_failures (reset_failures c) = 0
      /\ risk_manager (reset_failures c) = risk_manager c
      /\ max_consecutive_failures (reset_failures c) = max_consecutive_failures c)
  /\ is_enabled c = trading_enabled c.
Proof.
  split.
  - intros H. unfold controls_run in *. rewrite fold_left_app.
    apply (controls_run_keeps_disabled after), H.
  - split; [intros op; apply controls_step_keeps_disabled |].
    repeat split.
Qed.

Lemma disabled_is_absorbing_witness :
  trading_enabled
    (controls_run ([OpRecordFailure; OpRecordFailure; OpRecordFailure]
                   ++ [OpResetFailures; OpIsEnabled; OpRecordFailure; OpResetFailures])
       (EmergencyControls_init RiskManager_default 3)) = false.
Proof.
  apply (proj1 (disabled_is_absorbing (EmergencyControls_init RiskManager_default 3)
                  [OpRecordFailure; OpRecordFailure; OpRecordFailure]
                  [OpResetFailures; OpIsEnabled; OpRecordFailure; OpResetFailures])).
  reflexivity.
Defined.

(** C6: from the initial emergency state with max_consecutive_failures = 3,
    three record_failure calls in a row disable trading and empty the risk
    manager's open positions, whatever positions were open (after two the
    state is still armed); and so do three OrderEvents whose response
    carries an error, handled by on_order. *)
Theorem three_failures_trip
    (rm : RiskManager) (w : World) (e1 e2 e3 : event) :
  (let c := thrice record_failure (EmergencyControls_init rm 3) in
   trading_enabled c = false
   /\ open_positions (risk_manager c) = []
   /\ consecutive_failures c = 3
   /\ record_failure (record_failure (EmergencyControls_init rm 3))
      = {| risk_manager := rm; max_consecutive_failures := 3;
           trading_enabled := true; consecutive_failures := 2 |})
  /\ (controls w = EmergencyControls_init rm 3 ->
      (exists t s r, e1 = OrderEvent t s r /\ response_has_error r = true) ->
      (exists t s r, e2 = OrderEvent t s r /\ response_has_error r = true) ->
      (exists t s r, e3 = OrderEvent t s r /\ response_has_error r = true) ->
      let w3 := fst (on_order e3 (fst (on_order e2 (fst (on_order e1 w))))) in
      trading_enabled (controls w3) = false
      /\ open_positions (risk_of w3) = []).
Proof.
  split; [repeat split |].
  intros Hc (t1 & s1 & r1 & -> & H1) (t2 & s2 & r2 & -> & H2) (t3 & s3 & r3 & -> & H3).
  simpl. rewrite H1. simpl. rewrite H2. simpl. rewrite H3. simpl.
  rewrite Hc. split; reflexivity.
Qed.

Lemma three_failures_trip_witness :
  let w := main_unpatched
             (register_trade RiskManager_default alert_signal 1) failing_broker 3 0 in
  let e := OrderEvent 0 alert_signal (error_response (ValueError "503 Server Error")) in
  let w3 := fst (on_order e (fst (on_order e (fst (on_order e w))))) in
  trading_enabled (controls w3) = false /\ open_positions (risk_of w3) = [].
Proof.
  apply (proj2 (three_failures_trip
                  (register_trade RiskManager_default alert_signal 1)
                  (main_unpatched
                     (register_trade RiskManager_default alert_signal 1) failing_broker 3 0)
                  (OrderEvent 0 alert_signal (error_response (ValueError "503 Server Error")))
                  (OrderEvent 0 alert_signal (error_response (ValueError "503 Server Error")))
                  (OrderEvent 0 alert_signal (error_response (ValueError "503 Server Error")))));
    [reflexivity | | |]; do 3 eexists; split; reflexivity.
Defined.

(** ** Event bus *)

Section EventBusFacts.
Context {W H : Type}.
Variable invoke : H -> event -> W -> W * outcome.
Variable print_error : H -> exn -> W -> W.

Lemma dispatch_all (handlers : list H) (ev : event) :
  forall w,
    dispatch invoke print_error handlers ev w
    = (fold_left (after_handler invoke print_error ev) handlers w, Returned, handlers).
Proof.
  induction handlers as [| h rest IH]; intros w; simpl; [reflexivity |].
  unfold after_handler at 2.
  destruct (invoke h ev w) as [w1 [| exc]]; rewrite IH; reflexivity.
Qed.

Lemma subscribe_same (subs : gmap event_type (list H)) (cls : event_type) (h : H) :
  default [] (subscribe subs cls h !! cls) = default [] (subs !! cls) ++ [h].
Proof. unfold subscribe. rewrite lookup_insert_eq. reflexivity. Qed.

Lemma subscribe_other (subs : gmap event_type (list H)) (cls cls' : event_type) (h : H) :
  cls <> cls' -> subscribe subs cls h !! cls' = subs !! cls'.
Proof. intros Hne. unfold subscribe. apply lookup_insert_ne, Hne. Qed.

(** The handlers of a class after a series of subscriptions: those
    subscribed to that very class, in the order of the calls. *)
Lemma subscribe_order (regs : list (event_type * H)) (cls : event_type) :
  forall subs,
    default [] (fold_left (fun s r => subscribe s (fst r) (snd r)) regs subs !! cls)
    = default [] (subs !! cls)
        ++ map snd (List.filter (fun r => bool_decide (fst r = cls)) regs).
Proof.
  induction regs as [| [c h] regs IH]; intros subs; simpl.
  - rewrite app_nil_r. reflexivity.
  - rewrite IH. case_bool_decide as Hc; simpl in Hc.
    + subst c. rewrite subscribe_same. simpl. rewrite <- app_assoc. reflexivity.
    + rewrite subscribe_other by exact Hc. reflexivity.
Qed.
End EventBusFacts.

(** C8: for every registry, event and handlers, [publish] calls the
    handlers registered for the exact class of the event, all of them and
    in the order of their registration, and returns normally: a handler
    that raises has its error printed and the loop goes on from the state
    it left.  With no subscriber for the class, nothing is called and the
    state is untouched. *)
Theorem publish_isolates_handler_faults
    {W H : Type} (invoke : H -> event -> W -> W * outcome)
    (print_error : H -> exn -> W -> W)
    (subs : gmap event_type (list H)) (ev : event) (w : W) :
  publish invoke print_error subs ev w
  = (fold_left (after_handler invoke print_error ev) (default [] (subs !! type_of ev)) w,
     Returned,
     default [] (subs !! type_of ev))
  /\ (forall regs : list (event_type * H),
        handlers_for (fold_left (fun s r => subscribe s (fst r) (snd r)) regs ∅) ev
        = map snd (List.filter (fun r => bool_decide (fst r = type_of ev)) regs))
  /\ (default [] (subs !! type_of ev) = [] ->
      publish invoke print_error subs ev w = (w, Returned, [])).
Proof.
  split; [apply dispatch_all |].
  split.
  - intros regs. unfold handlers_for. rewrite subscribe_order, lookup_empty. reflexivity.
  - intros Hnone. unfold publish, handlers_for. rewrite Hnone. reflexivity.
Qed.

Lemma publish_isolates_handler_faults_witness :
  publish (fun (h : bool) (_ : event) (n : nat) =>
             if h then (S n, Raised (ValueError "handler failed")) else (n + 10, Returned)%nat)
          (fun _ _ n => n)
          (subscribe (subscribe ∅ AlertEvent_cls true) AlertEvent_cls false)
          (BaseEvent 0) 0%nat
  = (0%nat, Returned, []).
Proof.
  apply (proj2 (proj2 (publish_isolates_handler_faults _ _ _ (BaseEvent 0) 0%nat))).
  reflexivity.
Defined.

(** ** Execution manager and the wired pipeline *)

Lemma bus_publish_no_subscriber (d : nat) (ev : event) (w : World) :
  publish_attr w = EventBus_publish ->
  _subscribers w !! type_of ev = None ->
  bus_publish (S d) ev w = (note_published ev w, Returned).
Proof.
  intros Hattr Hnone. simpl. rewrite Hattr.
  unfold publish, handlers_for. simpl. rewrite Hnone. reflexivity.
Qed.

(** With the instance attribute installed and trading enabled, a call of
    [bus.publish] never reaches the class's method: [wrap_publish] looks
    [bus.publish] up again and finds itself. *)
Lemma patched_publish_raises (d : nat) :
  forall ev w,
    publish_attr w = wrap_publish_attr ->
    is_enabled (controls w) = true ->
    bus_publish d ev w = (w, Raised RecursionError).
Proof.
  induction d as [| d IH]; intros ev w Hattr Hen; simpl; [reflexivity |].
  rewrite Hattr. unfold wrap_publish. rewrite Hen, andb_false_r.
  apply IH; assumption.
Qed.

(** With trading disabled the kill switch drops an alert, with a warning. *)
Lemma patched_publish_drops_alert (d : nat) (t : Z) (s : TradeSignal) (raw : string) (w : World) :
  publish_attr w = wrap_publish_attr ->
  is_enabled (controls w) = false ->
  bus_publish (S d) (AlertEvent t s raw) w = (write (TradingDisabled (symbol s)) w, Returned).
Proof.
  intros Hattr Hen. simpl. rewrite Hattr. unfold wrap_publish. rewrite Hen. reflexivity.
Qed.

(** C5: when the risk check accepts the alert's signal and the brokerage
    raises, [handle_alert] does two things and no more: it publishes the
    RiskEvent, then one OrderEvent whose response is the dictionary with
    the key "error"; [register_trade] is not called.  On a bus where
    nothing listens to risk and order events, the call returns normally,
    these two events are the ones published, and the emergency state with
    its risk manager, open positions included, is what it was. *)
Theorem failed_submission_records_no_exposure
    (self : ExecutionManager) (ev : event) (signal : TradeSignal)
    (w : World) (why : reason) (exc : exn) :
  event_signal ev = Ok signal ->
  should_accept (risk_of w) signal (quantity self) = (true, why) ->
  ts_client self signal (quantity self) = Err exc ->
  (forall publish : event -> World -> World * outcome,
      snd (publish (RiskEvent (clock w) signal true why) w) = Returned ->
      let w1 := fst (publish (RiskEvent (clock w) signal true why) w) in
      handle_alert self publish ev w
      = publish (OrderEvent (clock w1) signal (PDict [("error", PStr (str exc))])) w1)
  /\ (forall d : nat,
        publish_attr w = EventBus_publish ->
        _subscribers w !! RiskEvent_cls = None ->
        _subscribers w !! OrderEvent_cls = None ->
        let r := handle_alert self (bus_publish (S d)) ev w in
        snd r = Returned
        /\ controls (fst r) = controls w
        /\ open_positions (risk_of (fst r)) = open_positions (risk_of w)
        /\ published (fst r)
           = published w ++ [ RiskEvent (clock w) signal true why;
                              OrderEvent (clock w) signal (PDict [("error", PStr (str exc))]) ]
        /\ output (fst r) = output w).
Proof.
  intros Hsig Hacc Hfail. split.
  - intros publish Hret. unfold handle_alert. rewrite Hsig, Hacc.
    destruct (publish (RiskEvent (clock w) signal true why) w) as [w1 o] eqn:E.
    simpl in Hret. subst o. simpl. rewrite Hfail. reflexivity.
  - intros d Hattr Hrisk Horder. unfold handle_alert. rewrite Hsig, Hacc.
    rewrite bus_publish_no_subscriber by assumption.
    simpl negb. cbv iota. rewrite Hfail.
    rewrite bus_publish_no_subscriber by assumption.
    simpl. rewrite <- app_assoc. repeat split.
Qed.

Lemma failed_submission_records_no_exposure_witness :
  let w := coordinator_alone (register_trade RiskManager_default near_cap_signal 1)
             failing_broker 3 0 in
  let r := handle_alert failing_broker (bus_publish 2)
             (AlertEvent 0 alert_signal (raw_message alert_signal)) w in
  snd r = Returned
  /\ controls (fst r) = controls w
  /\ open_positions (risk_of (fst r)) = open_positions (risk_of w)
  /\ published (fst r)
     = published w ++ [ RiskEvent (clock w) alert_signal true Accepted;
                        OrderEvent (clock w) alert_signal
                          (PDict [("error", PStr "503 Server Error")]) ]
  /\ output (fst r) = output w.
Proof.
  apply (proj2 (failed_submission_records_no_exposure failing_broker
                  (AlertEvent 0 alert_signal (raw_message alert_signal)) alert_signal
                  (coordinator_alone (register_trade RiskManager_default near_cap_signal 1)
                     failing_broker 3 0)
                  Accepted {| exn_class := "HTTPError"; str := "503 Server Error" |}
                  eq_refl eq_refl eq_refl) 1%nat);
    reflexivity.
Defined.

(** C1, evaluated: default limits, quantity 1, max_consecutive_failures = 3,
    a brokerage whose every submission raises, and three alerts that the
    risk check accepts.  With the subscribers of main on the bus, each
    alert has its RiskEvent and its error OrderEvent published, and yet
    after the third trading is still enabled with one failure counted:
    [on_risk] resets the counter at each acceptance, before [on_order]
    records the failure.  With the kill switch installed as main installs
    it, each alert ends in RecursionError before any handler runs, and the
    state is the initial one. *)
Theorem three_failed_alerts_do_not_trip :
  let plain := on_messages three_alerts
                 (main_unpatched RiskManager_default failing_broker 3 0) in
  let wired := on_messages three_alerts
                 (main_async RiskManager_default failing_broker 3 0) in
  fst (should_accept RiskManager_default alert_signal 1) = true
  /\ (trading_enabled (controls plain) = true
      /\ consecutive_failures (controls plain) = 1
      /\ map type_of (published plain)
         = [ AlertEvent_cls; RiskEvent_cls; OrderEvent_cls;
             AlertEvent_cls; RiskEvent_cls; OrderEvent_cls;
             AlertEvent_cls; RiskEvent_cls; OrderEvent_cls ]
      /\ Forall (fun ev => match ev with
                           | OrderEvent _ _ r => response_has_error r = true
                           | _ => True
                           end) (published plain))
  /\ (trading_enabled (controls wired) = true
      /\ consecutive_failures (controls wired) = 0
      /\ published wired = []
      /\ snd (on_message alert_signal (raw_message alert_signal)
                (main_async RiskManager_default failing_broker 3 0))
         = Raised RecursionError).
Proof.
  cbv zeta. split; [reflexivity |]. split.
  - split; [vm_compute; reflexivity |].
    split; [vm_compute; reflexivity |].
    split; [vm_compute; reflexivity |].
    vm_compute. repeat constructor.
  - repeat split; vm_compute; reflexivity.
Qed.

(** ** Signal parser: the expiration date *)

Lemma mk_date_fields (y m d : Z) (dt : date) :
  mk_date y m d = Ok dt -> dt = Date y m d.
Proof.
  unfold mk_date. destruct (_ && _); [| discriminate].
  intros E. injection E as <-. reflexivity.
Qed.




Lemma TradeSignal_init_past
    (today : date) (sym : string) (k : Q) (otype : string) (expiration : date)
    (entry stop : Q) (raw : string) :
  date_leb expiration today = true ->
  exists exc, TradeSignal_init today sym k otype expiration entry stop raw = Err exc.
Proof.
  intros Hpast. unfold TradeSignal_init, _upper_symbol. simpl.
  destruct (_normalize_option_type otype); simpl; [| eexists; reflexivity].
  unfold _future_date. rewrite Hpast. simpl. eexists; reflexivity.
Qed.

Section ParserFacts.
Variable date_parser_parse : string -> result date.
Variable search : string -> option groups.
Variable today : date.




Lemma parse_rejects_past (message : string) (g : groups) (expiration : date) :
  search message = Some g ->
  _normalize_expiration date_parser_parse today (g_expiry g) = Ok expiration ->
  date_leb expiration today = true ->
  exists msg, parse_discord_message date_parser_parse search today message
              = Err (SignalParserError msg).
Proof.
  intros Hg Hn Hpast. unfold parse_discord_message. rewrite Hg, Hn. simpl.
  destruct (py_float (g_strike g)) as [k |]; simpl; [| eexists; reflexivity].
  destruct (py_float (g_entry g)) as [entry |]; simpl; [| eexists; reflexivity].
  destruct (py_float (g_stop g)) as [stop |]; simpl; [| eexists; reflexivity].
  destruct (TradeSignal_init_past today (g_symbol g) k (g_otype g) expiration entry stop
              message Hpast) as [exc ->].
  simpl. eexists; reflexivity.
Qed.
End ParserFacts.




(** The alert of the docstring, read on 4 November 2026: dateutil reads
    10/10 as 10 October 2026, which has passed, and the parse returns the
    signal for 10 October 2027. *)
Example docstring_alert_parses :
  parse_discord_message
    (fun _ => Ok (Date 2026 10 10))
    (fun _ => Some {| g_symbol := "AAPL"; g_strike := "250"; g_otype := "CALLS";
                      g_expiry := "10/10"; g_entry := "1.29"; g_stop := "1.00" |})
    (Date 2026 11 4)
    "AAPL - $250 CALLS EXPIRATION 10/10 $1.29 STOP LOSS AT $1.00"
  = Ok {| symbol := "AAPL"; strike := 250; option_type := "Call";
          expiration_date := Date 2027 10 10;
          entry_price := 129 # 100; stop_price := 1;
          raw_message := "AAPL - $250 CALLS EXPIRATION 10/10 $1.29 STOP LOSS AT $1.00" |}.
Proof. reflexivity. Qed.

(** ** The circuit breaker behind the subscribers of main *)

Lemma main_handlers (em : ExecutionManager) (ev : event) :
  handlers_for (main_subscribers em) ev
  = match type_of ev with
    | BaseEvent_cls => []
    | AlertEvent_cls => [H_handle_alert em]
    | OrderEvent_cls => [H_on_order]
    | RiskEvent_cls => [H_on_risk]
    end.
Proof. destruct ev; reflexivity. Qed.

Section MainWiring.
Variables (em : ExecutionManager) (w : World).
Hypothesis Hsubs : _subscribers w = main_subscribers em.
Hypothesis Hattr : publish_attr w = EventBus_publish.

Lemma publish_accepted_risk_event (d : nat) (t : Z) (s : TradeSignal) (why : reason) :
  bus_publish (S d) (RiskEvent t s true why) w
  = (set_controls (note_published (RiskEvent t s true why) w)
       (reset_failures (controls w)), Returned).
Proof.
  simpl. rewrite Hattr.
  unfold publish. rewrite dispatch_all, Hsubs, main_handlers. reflexivity.
Qed.

Lemma publish_order_event (d : nat) (t : Z) (s : TradeSignal) (r : pyval) :
  bus_publish (S d) (OrderEvent t s r) w
  = (set_controls (note_published (OrderEvent t s r) w)
       (if response_has_error r then record_failure (controls w)
        else reset_failures (controls w)), Returned).
Proof.
  simpl. rewrite Hattr.
  unfold publish. rewrite dispatch_all, Hsubs, main_handlers.
  simpl. unfold after_handler. simpl.
  destruct (response_has_error r); reflexivity.
Qed.
End MainWiring.

(** Behind the subscribers of main, an accepted alert whose submission
    fails leaves exactly one failure counted, whatever the count was: the
    acceptance has reset it.  With a threshold of two or more the breaker
    stays as it was. *)
Lemma failed_alert_counts_one_failure
    (em : ExecutionManager) (w : World) (d : nat) (t : Z) (s : TradeSignal)
    (raw : string) (why : reason) (exc : exn) :
  _subscribers w = main_subscribers em ->
  publish_attr w = EventBus_publish ->
  should_accept (risk_of w) s (quantity em) = (true, why) ->
  ts_client em s (quantity em) = Err exc ->
  str exc <> ""%string ->
  (1 >=? max_consecutive_failures (controls w)) = false ->
  let w' := fst (bus_publish (S (S d)) (AlertEvent t s raw) w) in
  consecutive_failures (controls w') = 1
  /\ trading_enabled (controls w') = trading_enabled (controls w)
  /\ risk_of w' = risk_of w
  /\ max_consecutive_failures (controls w') = max_consecutive_failures (controls w)
  /\ _subscribers w' = _subscribers w
  /\ publish_attr w' = publish_attr w.
Proof.
  intros Hsubs Hattr Hacc Hfail Hmsg Hmax.
  cbv zeta.
  change (bus_publish (S (S d)) (AlertEvent t s raw) w)
    with (match publish_attr w with
          | EventBus_publish =>
              fst (publish (invoke_handler (bus_publish (S d))) print_handler_error
                     (_subscribers w) (AlertEvent t s raw)
                     (note_published (AlertEvent t s raw) w))
          | wrap_publish_attr => wrap_publish (bus_publish (S d)) (AlertEvent t s raw) w
          end).
  rewrite Hattr.
  unfold publish. rewrite dispatch_all, Hsubs, main_handlers.
  cbn [type_of fold_left fst]. unfold after_handler. cbn [invoke_handler].
  set (w0 := note_published (AlertEvent t s raw) w).
  unfold handle_alert. cbn [event_signal].
  change (risk_of w0) with (risk_of w). rewrite Hacc.
  rewrite (publish_accepted_risk_event em w0 Hsubs Hattr).
  cbn [negb]. rewrite Hfail.
  set (w1 := set_controls _ _).
  rewrite (publish_order_event em w1 Hsubs Hattr).
  assert (Herr : response_has_error (error_response exc) = true).
  { unfold error_response, response_has_error. simpl.
    destruct (String.eqb_spec (str exc) ""); [contradiction | reflexivity]. }
  rewrite Herr. subst w1 w0. cbn.
  unfold record_failure. cbn. change (0 + 1) with 1. rewrite Hmax.
  repeat split; assumption.
Qed.

Lemma on_message_depth (s : TradeSignal) (raw : string) (w : World) :
  on_message s raw w = bus_publish (S (S 998)) (AlertEvent (clock w) s raw) w.
Proof. reflexivity. Qed.

Lemma fold_left_invariant {A B : Type} (f : A -> B -> A) (P : A -> Prop) (Q : B -> Prop) :
  (forall a b, P a -> Q b -> P (f a b)) ->
  forall l a, P a -> Forall Q l -> P (fold_left f l a).
Proof.
  intros Hstep l. induction l as [| b l IH]; intros a Ha Hl; [exact Ha |].
  inversion Hl as [| ? ? Hb Hrest]; subst.
  cbn [fold_left]. apply IH; [apply Hstep; assumption | exact Hrest].
Qed.

(** X16: behind the subscribers of main, on the bus of the class, however
    many alerts are accepted and then fail at the brokerage with a
    non-empty error message, a breaker with a threshold of two or more is
    not tripped by them: each acceptance resets the counter before the
    failure is recorded. *)
Lemma failed_alerts_never_trip
    (em : ExecutionManager) (rm : RiskManager) (alerts : list (TradeSignal * string))
    (w : World) :
  _subscribers w = main_subscribers em ->
  publish_attr w = EventBus_publish ->
  (1 >=? max_consecutive_failures (controls w)) = false ->
  risk_of w = rm ->
  trading_enabled (controls w) = true ->
  Forall (fun a => fst (should_accept rm (fst a) (quantity em)) = true
                   /\ exists exc, ts_client em (fst a) (quantity em) = Err exc
                                  /\ str exc <> ""%string) alerts ->
  trading_enabled (controls (on_messages alerts w)) = true.
Proof.
  intros Hsubs Hattr Hmax Hrisk Hen Hall.
  set (P := fun w0 : World =>
              _subscribers w0 = main_subscribers em
              /\ publish_attr w0 = EventBus_publish
              /\ (1 >=? max_consecutive_failures (controls w0)) = false
              /\ risk_of w0 = rm
              /\ trading_enabled (controls w0) = true).
  assert (HP : P (on_messages alerts w)).
  { unfold on_messages.
    apply (fold_left_invariant _ P _) with (2 := conj Hsubs (conj Hattr (conj Hmax (conj Hrisk Hen))))
                                           (3 := Hall).
    clear. intros w0 [s raw] (Hs0 & Ha0 & Hm0 & Hr0 & He0) [Hacc (exc & Hfail & Hmsg)].
    cbn [fst snd] in *. rewrite on_message_depth.
    destruct (should_accept rm s (quantity em)) as [acc why] eqn:E.
    cbn [fst] in Hacc. subst acc. rewrite <- Hr0 in E.
    destruct (failed_alert_counts_one_failure em w0 998 (clock w0) s raw why exc
                Hs0 Ha0 E Hfail Hmsg Hm0) as (_ & Hen' & Hrisk' & Hm' & Hs' & Ha').
    unfold P. rewrite Hs', Ha', Hm', Hrisk', Hen'. auto. }
  apply HP.
Qed.


(* ===================================================================== *)
(** * Further properties *)
(* ===================================================================== *)

(** ** Risk manager: the decision, the record and the position count *)

Lemma Qround2_idempotent (q : Q) : Qround2 (Qround2 q) = Qround2 q.
Proof.
  unfold Qround2 at 1 3.
  rewrite (round_half_even_comp (Qround2 q * 100) (inject_Z (round_half_even (q * 100)))).
  - rewrite round_half_even_Z. reflexivity.
  - rewrite Qround2_eq. unfold Qmult, Qeq, inject_Z; simpl. lia.
Qed.

Lemma round2_contribution (rm : RiskManager) (s : TradeSignal) (q : Z) :
  round2 (risk_contribution rm (_calculate_trade_risk rm s q))
  = risk_contribution rm (_calculate_trade_risk rm s q).
Proof.
  unfold risk_contribution.
  destruct (ltb _ _); [| reflexivity].
  unfold _calculate_trade_risk. destruct (Qle_bool _ _); [reflexivity |].
  simpl. rewrite Qround2_idempotent. reflexivity.
Qed.

(** [should_accept] accepts exactly when its three tests pass, and the
    reason it returns is [Accepted] exactly when it accepts. *)
Theorem should_accept_iff (rm : RiskManager) (s : TradeSignal) (q : Z) :
  (fst (should_accept rm s q) = true
   <-> (Z.of_nat (length (open_positions rm)) < max_open_positions rm
        /\ gtb (_calculate_trade_risk rm s q) (max_risk_per_trade rm) = false
        /\ geb (add (round2 (total_recorded_risk rm))
                    (risk_contribution rm (_calculate_trade_risk rm s q)))
               (max_total_risk rm) = false))
  /\ (fst (should_accept rm s q) = true <-> snd (should_accept rm s q) = Accepted).
Proof.
  unfold should_accept.
  destruct (Z.geb_spec (Z.of_nat (length (open_positions rm))) (max_open_positions rm)) as [Hc | Hc].
  { simpl. split; split; try discriminate. intros (H & _). lia. }
  destruct (gtb _ _).
  { simpl. split; split; try discriminate. intros (_ & H & _). discriminate. }
  destruct (geb _ _); simpl.
  - split; split; try discriminate. intros (_ & _ & H). discriminate.
  - split; split; auto.
Qed.

(** X1: the risk that [register_trade] records is the very contribution
    that [should_accept] adds to the total for the same signal and
    quantity (rounding it once more changes nothing), so the recorded total
    after a registration is the total before plus that contribution. *)
Theorem registered_risk_is_evaluated_contribution
    (rm : RiskManager) (s : TradeSignal) (q : Z) :
  open_positions (register_trade rm s q)
  = open_positions rm
      ++ [ {| pos_symbol := symbol s;
              risk := risk_contribution rm (_calculate_trade_risk rm s q) |} ]
  /\ total_recorded_risk (register_trade rm s q)
     = add (total_recorded_risk rm)
           (risk_contribution rm (_calculate_trade_risk rm s q)).
Proof.
  assert (E : open_positions (register_trade rm s q)
              = open_positions rm
                  ++ [ {| pos_symbol := symbol s;
                          risk := risk_contribution rm (_calculate_trade_risk rm s q) |} ]).
  { rewrite register_trade_positions, round2_contribution. reflexivity. }
  split; [exact E |].
  unfold total_recorded_risk. rewrite E, map_app. cbn [map risk]. apply sum_snoc.
Qed.





Lemma risk_step_max_open (rm : RiskManager) (op : risk_op) :
  max_open_positions (risk_step rm op) = max_open_positions rm.
Proof.
  destruct op as [s q |]; simpl; [| reflexivity].
  destruct (fst (should_accept rm s q)); reflexivity.
Qed.

Lemma risk_run_count (ops : list risk_op) :
  forall rm,
    0 <= max_open_positions rm ->
    Z.of_nat (length (open_positions rm)) <= max_open_positions rm ->
    Z.of_nat (length (open_positions (risk_run ops rm))) <= max_open_positions rm.
Proof.
  unfold risk_run.
  induction ops as [| op ops IH]; intros rm Hmax Hlen; [exact Hlen |].
  cbn [fold_left]. rewrite <- (risk_step_max_open rm op).
  apply IH; rewrite risk_step_max_open; [exact Hmax |].
  destruct op as [s q |]; simpl.
  - destruct (fst (should_accept rm s q)) eqn:Hacc; [| exact Hlen].
    apply should_accept_true in Hacc as (Hlt & _).
    rewrite register_trade_positions, length_app. simpl.
    destruct (Z.geb_spec (Z.of_nat (length (open_positions rm))) (max_open_positions rm));
      [discriminate | lia].
  - exact Hmax.
Qed.

(** X3: when trades are registered only after [should_accept] accepted
    them, the number of open positions never exceeds max_open_positions,
    provided that limit is not negative. *)
Theorem open_positions_within_count
    (max_open : Z) (per_trade total : float) (multiplier : Z) (ops : list risk_op) :
  0 <= max_open ->
  Z.of_nat (length (open_positions
                      (risk_run ops (RiskManager_init max_open per_trade total multiplier))))
  <= max_open.
Proof.
  intros Hmax.
  apply (risk_run_count ops (RiskManager_init max_open per_trade total multiplier));
    simpl; lia.
Qed.

Lemma open_positions_within_count_witness :
  Z.of_nat (length (open_positions
                      (risk_run [Trade alert_signal 1; Trade alert_signal 1;
                                 Trade alert_signal 1]
                         (RiskManager_init 2 (Fin 100) (Fin 300) 100))))
  <= 2.
Proof.
  apply (open_positions_within_count 2 (Fin 100) (Fin 300) 100
           [Trade alert_signal 1; Trade alert_signal 1; Trade alert_signal 1]).
  lia.
Defined.

(** ** Emergency controls: when the breaker trips *)

Lemma record_failure_fields (c : EmergencyControls) :
  max_consecutive_failures (record_failure c) = max_consecutive_failures c
  /\ consecutive_failures (record_failure c) = consecutive_failures c + 1
  /\ trading_enabled (record_failure c)
     = (trading_enabled c && (consecutive_failures c + 1 <? max_consecutive_failures c))
  /\ ((consecutive_failures c + 1 <? max_consecutive_failures c) = false ->
      open_positions (risk_manager (record_failure c)) = [])
  /\ ((consecutive_failures c + 1 <? max_consecutive_failures c) = true ->
      risk_manager (record_failure c) = risk_manager c).
Proof.
  unfold record_failure.
  destruct (Z.geb_spec (consecutive_failures c + 1) (max_consecutive_failures c)) as [H | H];
    destruct (Z.ltb_spec (consecutive_failures c + 1) (max_consecutive_failures c));
    try lia; cbn; repeat split; try discriminate.
  - rewrite andb_false_r. reflexivity.
  - rewrite andb_true_r. reflexivity.
Qed.

Lemma streak_invariant (max_failures : Z) (ops : list controls_op) :
  forall (c : EmergencyControls) (st : Z * Z),
    max_consecutive_failures c = max_failures ->
    consecutive_failures c = fst st ->
    trading_enabled c = (snd st <? max_failures) ->
    (trading_enabled c = false -> open_positions (risk_manager c) = []) ->
    let c' := fold_left controls_step ops c in
    let st' := fold_left streak_step ops st in
    max_consecutive_failures c' = max_failures
    /\ consecutive_failures c' = fst st'
    /\ trading_enabled c' = (snd st' <? max_failures)
    /\ (trading_enabled c' = false -> open_positions (risk_manager c') = []).
Proof.
  induction ops as [| op ops IH]; intros c st Hmax Hcount Hen Hpos; cbn [fold_left].
  - auto.
  - destruct op; cbn [controls_step streak_step fst snd].
    + destruct (record_failure_fields c) as (F1 & F2 & F3 & F4 & F5).
      apply IH; cbn [fst snd].
      * rewrite F1. exact Hmax.
      * rewrite F2, Hcount. reflexivity.
      * rewrite F3, Hen, Hcount, Hmax.
        destruct (Z.ltb_spec (snd st) max_failures);
          destruct (Z.ltb_spec (fst st + 1) max_failures);
          destruct (Z.ltb_spec (Z.max (snd st) (fst st + 1)) max_failures);
          try reflexivity; lia.
      * rewrite F3. intros Hoff.
        destruct (consecutive_failures c + 1 <? max_consecutive_failures c) eqn:E.
        -- rewrite F5 by reflexivity. apply Hpos.
           rewrite andb_true_r in Hoff. exact Hoff.
        -- apply F4. reflexivity.
    + apply IH; auto.
    + apply IH; auto.
Qed.

(** X4: for a threshold of at least one, after any run of record_failure,
    reset_failures and is_enabled calls from the initial state, the counter
    is the number of failures since the last reset, and trading is enabled
    exactly when no streak of failures uninterrupted by a reset has reached
    max_consecutive_failures; once it is disabled the risk manager's open
    positions are empty. *)
Theorem breaker_trips_on_streak
    (rm : RiskManager) (max_failures : Z) (ops : list controls_op) :
  1 <= max_failures ->
  let c := controls_run ops (EmergencyControls_init rm max_failures) in
  consecutive_failures c = current_streak ops
  /\ trading_enabled c = (longest_streak ops <? max_failures)
  /\ (trading_enabled c = false -> open_positions (risk_manager c) = []).
Proof.
  intros Hmax.
  destruct (streak_invariant max_failures ops
              (EmergencyControls_init rm max_failures) (0, 0)) as (_ & H1 & H2 & H3).
  - reflexivity.
  - reflexivity.
  - simpl. symmetry. apply Z.ltb_lt. lia.
  - simpl. discriminate.
  - cbv zeta. auto.
Qed.

Lemma breaker_trips_on_streak_witness :
  let c := controls_run
             [OpRecordFailure; OpRecordFailure; OpResetFailures; OpIsEnabled;
              OpRecordFailure; OpRecordFailure]
             (EmergencyControls_init RiskManager_default 3) in
  consecutive_failures c = 2 /\ trading_enabled c = true.
Proof.
  destruct (breaker_trips_on_streak RiskManager_default 3
              [OpRecordFailure; OpRecordFailure; OpResetFailures; OpIsEnabled;
               OpRecordFailure; OpRecordFailure]) as (H1 & H2 & _).
  - lia.
  - split; [exact H1 | exact H2].
Defined.

(** X5: for every threshold, after [k] record_failure calls in a row from
    the initial state the counter is [k], and trading is still enabled
    exactly when [k] is 0 or below the threshold; in particular a threshold
    of 0 or less trips at the first failure, and not before. *)
Theorem failures_trip_at_threshold (rm : RiskManager) (max_failures : Z) (k : nat) :
  let c := Nat.iter k record_failure (EmergencyControls_init rm max_failures) in
  consecutive_failures c = Z.of_nat k
  /\ max_consecutive_failures c = max_failures
  /\ trading_enabled c = (Nat.eqb k 0 || (Z.of_nat k <? max_failures)).
Proof.
  induction k as [| k IH]; [repeat split |].
  cbv zeta in *.
  change (Nat.iter (S k) record_failure (EmergencyControls_init rm max_failures))
    with (record_failure (Nat.iter k record_failure (EmergencyControls_init rm max_failures))).
  set (c := Nat.iter k record_failure (EmergencyControls_init rm max_failures)) in *.
  destruct IH as (IH1 & IH2 & IH3).
  destruct (record_failure_fields c) as (F1 & F2 & F3 & _).
  rewrite F1, F2, F3, IH1, IH2, IH3.
  split; [lia |]. split; [reflexivity |].
  cbn [Nat.eqb orb].
  destruct k as [| k]; cbn [Nat.eqb orb].
  - reflexivity.
  - destruct (Z.ltb_spec (Z.of_nat (S k)) max_failures);
      destruct (Z.ltb_spec (Z.of_nat (S k) + 1) max_failures);
      destruct (Z.ltb_spec (Z.of_nat (S (S k))) max_failures);
      try reflexivity; lia.
Qed.

(** ** Event bus: subscribing, then publishing *)

(** X6: after [subscribe subs cls h], publishing an event calls the
    handlers that were registered for its class before, in their order, and
    then [h] if the event is of class [cls]; the handler lists of the other
    classes are untouched, and subscribing a handler that is already there
    makes it run once more. *)
Theorem publish_after_subscribe
    {W H : Type} (invoke : H -> event -> W -> W * outcome)
    (print_error : H -> exn -> W -> W)
    (subs : gmap event_type (list H)) (cls : event_type) (h : H) (ev : event) (w : W) :
  snd (publish invoke print_error (subscribe subs cls h) ev w)
  = snd (publish invoke print_error subs ev w)
      ++ (if bool_decide (cls = type_of ev) then [h] else []).
Proof.
  unfold publish. rewrite !dispatch_all. cbn [snd]. unfold handlers_for.
  case_bool_decide as Hc.
  - subst cls. apply subscribe_same.
  - rewrite subscribe_other by exact Hc. rewrite app_nil_r. reflexivity.
Qed.

(** ** Execution manager: the other two ways an alert ends *)

(** X7: when the risk check rejects the signal, [handle_alert] is the
    publication of the RiskEvent with accepted = false and nothing else,
    whatever the bus does with it: the brokerage is not called, no
    OrderEvent is published and no trade is registered.  On a bus where
    nothing listens to risk events the state is left as it was. *)
Theorem rejected_alert_only_publishes_risk_event
    (self : ExecutionManager) (ev : event) (signal : TradeSignal)
    (w : World) (why : reason) :
  event_signal ev = Ok signal ->
  should_accept (risk_of w) signal (quantity self) = (false, why) ->
  (forall publish : event -> World -> World * outcome,
      handle_alert self publish ev w = publish (RiskEvent (clock w) signal false why) w)
  /\ (forall d : nat,
        publish_attr w = EventBus_publish ->
        _subscribers w !! RiskEvent_cls = None ->
        handle_alert self (bus_publish (S d)) ev w
        = (note_published (RiskEvent (clock w) signal false why) w, Returned)).
Proof.
  intros Hsig Hrej.
  assert (H : forall publish : event -> World -> World * outcome,
             handle_alert self publish ev w
             = publish (RiskEvent (clock w) signal false why) w).
  { intros publish. unfold handle_alert. rewrite Hsig, Hrej.
    destruct (publish (RiskEvent (clock w) signal false why) w) as [w1 [| exc]]; reflexivity. }
  split; [exact H |].
  intros d Hattr Hnone. rewrite H. apply bus_publish_no_subscriber; assumption.
Qed.

Lemma rejected_alert_only_publishes_risk_event_witness :
  let w := coordinator_alone (register_trade RiskManager_default near_cap_signal 1)
             failing_broker 3 0 in
  handle_alert failing_broker (bus_publish 1)
    (AlertEvent 0 over_cap_signal (raw_message over_cap_signal)) w
  = (note_published
       (RiskEvent 0 over_cap_signal false (TradeRiskExceeds (Fin 500) (Fin 100))) w,
     Returned).
Proof.
  apply (proj2 (rejected_alert_only_publishes_risk_event failing_broker
                  (AlertEvent 0 over_cap_signal (raw_message over_cap_signal))
                  over_cap_signal
                  (coordinator_alone (register_trade RiskManager_default near_cap_signal 1)
                     failing_broker 3 0)
                  (TradeRiskExceeds (Fin 500) (Fin 100)) eq_refl eq_refl) 0%nat);
    reflexivity.
Defined.

(** X8: when the risk check accepts and the brokerage returns a response,
    [handle_alert] publishes the RiskEvent, registers the trade and then
    publishes one OrderEvent carrying that response.  On a bus where
    nothing listens to risk and order events, the open positions grow by
    exactly one Position, whose risk is the contribution the check
    evaluated, and the emergency counters are untouched. *)
Theorem submitted_alert_registers_one_position
    (self : ExecutionManager) (ev : event) (signal : TradeSignal)
    (w : World) (why : reason) (response : pyval) :
  event_signal ev = Ok signal ->
  should_accept (risk_of w) signal (quantity self) = (true, why) ->
  ts_client self signal (quantity self) = Ok response ->
  (forall publish : event -> World -> World * outcome,
      snd (publish (RiskEvent (clock w) signal true why) w) = Returned ->
      let w1 := fst (publish (RiskEvent (clock w) signal true why) w) in
      handle_alert self publish ev w
      = publish (OrderEvent (clock w1) signal response)
          (set_risk w1 (register_trade (risk_of w1) signal (quantity self))))
  /\ (forall d : nat,
        publish_attr w = EventBus_publish ->
        _subscribers w !! RiskEvent_cls = None ->
        _subscribers w !! OrderEvent_cls = None ->
        let r := handle_alert self (bus_publish (S d)) ev w in
        snd r = Returned
        /\ open_positions (risk_of (fst r))
           = open_positions (risk_of w)
               ++ [ {| pos_symbol := symbol signal;
                       risk := risk_contribution (risk_of w)
                                 (_calculate_trade_risk (risk_of w) signal (quantity self)) |} ]
        /\ consecutive_failures (controls (fst r)) = consecutive_failures (controls w)
        /\ trading_enabled (controls (fst r)) = trading_enabled (controls w)
        /\ published (fst r)
           = published w ++ [ RiskEvent (clock w) signal true why;
                              OrderEvent (clock w) signal response ]).
Proof.
  intros Hsig Hacc Hok. split.
  - intros publish Hret. unfold handle_alert. rewrite Hsig, Hacc.
    destruct (publish (RiskEvent (clock w) signal true why) w) as [w1 o] eqn:E.
    simpl in Hret. subst o. simpl. rewrite Hok. reflexivity.
  - intros d Hattr Hrisk Horder. unfold handle_alert. rewrite Hsig, Hacc.
    rewrite bus_publish_no_subscriber by assumption.
    simpl negb. cbv iota. rewrite Hok.
    rewrite bus_publish_no_subscriber by assumption.
    cbn [fst snd]. split; [reflexivity |].
    split.
    { change (risk_of (note_published (RiskEvent (clock w) signal true why) w))
        with (risk_of w).
      cbn [risk_of note_published set_risk set_controls controls risk_manager].
      rewrite register_trade_positions, round2_contribution. reflexivity. }
    cbn. rewrite <- app_assoc. repeat split.
Qed.

Lemma submitted_alert_registers_one_position_witness :
  let broker := {| ts_client := fun _ _ => Ok (PDict [("OrderID", PStr "1")]); quantity := 1 |} in
  let w := coordinator_alone RiskManager_default broker 3 0 in
  let r := handle_alert broker (bus_publish 1)
             (AlertEvent 0 alert_signal (raw_message alert_signal)) w in
  snd r = Returned
  /\ open_positions (risk_of (fst r)) = [ {| pos_symbol := "AAPL"; risk := Fin 29 |} ].
Proof.
  destruct (proj2 (submitted_alert_registers_one_position
                     {| ts_client := fun _ _ => Ok (PDict [("OrderID", PStr "1")]);
                        quantity := 1 |}
                     (AlertEvent 0 alert_signal (raw_message alert_signal)) alert_signal
                     (coordinator_alone RiskManager_default
                        {| ts_client := fun _ _ => Ok (PDict [("OrderID", PStr "1")]);
                           quantity := 1 |} 3 0)
                     Accepted (PDict [("OrderID", PStr "1")]) eq_refl eq_refl eq_refl)
                  0%nat eq_refl eq_refl eq_refl) as (H1 & H2 & _).
  split; [exact H1 | exact H2].
Defined.

(** X9: if publishing the RiskEvent raises, [handle_alert] ends with that
    exception at once: the brokerage is not called and no trade is
    registered, even for a signal the risk check accepted.  This is what
    happens on the bus as main leaves it: with the kill switch installed
    and trading enabled, a direct call of [handle_alert] ends in
    RecursionError with the state untouched. *)
Theorem publish_failure_stops_the_alert
    (self : ExecutionManager) (ev : event) (signal : TradeSignal) (w : World) :
  event_signal ev = Ok signal ->
  (forall (publish : event -> World -> World * outcome) (w1 : World) (exc : exn),
      publish (RiskEvent (clock w) signal
                 (fst (should_accept (risk_of w) signal (quantity self)))
                 (snd (should_accept (risk_of w) signal (quantity self)))) w
      = (w1, Raised exc) ->
      handle_alert self publish ev w = (w1, Raised exc))
  /\ (forall d : nat,
        publish_attr w = wrap_publish_attr ->
        is_enabled (controls w) = true ->
        handle_alert self (bus_publish d) ev w = (w, Raised RecursionError)).
Proof.
  intros Hsig.
  assert (H : forall (publish : event -> World -> World * outcome) (w1 : World) (exc : exn),
             publish (RiskEvent (clock w) signal
                        (fst (should_accept (risk_of w) signal (quantity self)))
                        (snd (should_accept (risk_of w) signal (quantity self)))) w
             = (w1, Raised exc) ->
             handle_alert self publish ev w = (w1, Raised exc)).
  { intros publish w1 exc E. unfold handle_alert. rewrite Hsig.
    destruct (should_accept (risk_of w) signal (quantity self)) as [acc why].
    cbn [fst snd] in E. rewrite E. reflexivity. }
  split; [exact H |].
  intros d Hattr Hen. apply H. apply patched_publish_raises; assumption.
Qed.

Lemma publish_failure_stops_the_alert_witness :
  let broker := {| ts_client := fun _ _ => Ok (PDict [("OrderID", PStr "1")]); quantity := 1 |} in
  let w := main_async RiskManager_default broker 3 0 in
  handle_alert broker (bus_publish recursion_limit)
    (AlertEvent 0 alert_signal (raw_message alert_signal)) w
  = (w, Raised RecursionError).
Proof.
  apply (proj2 (publish_failure_stops_the_alert
                  {| ts_client := fun _ _ => Ok (PDict [("OrderID", PStr "1")]);
                     quantity := 1 |}
                  (AlertEvent 0 alert_signal (raw_message alert_signal)) alert_signal
                  (main_async RiskManager_default
                     {| ts_client := fun _ _ => Ok (PDict [("OrderID", PStr "1")]);
                        quantity := 1 |} 3 0)
                  eq_refl));
    reflexivity.
Defined.

(** ** main.py: what the wiring does with an alert *)

(** The state after an accepted alert has gone through the subscribers of
    main, on the bus of the class. *)
Lemma accepted_alert_behind_main_subscribers
    (em : ExecutionManager) (w : World) (d : nat) (t : Z) (s : TradeSignal)
    (raw : string) (why : reason) :
  _subscribers w = main_subscribers em ->
  publish_attr w = EventBus_publish ->
  should_accept (risk_of w) s (quantity em) = (true, why) ->
  let w1 := set_controls
              (note_published (RiskEvent (clock w) s true why)
                 (note_published (AlertEvent t s raw) w))
              (reset_failures (controls w)) in
  bus_publish (S (S d)) (AlertEvent t s raw) w
  = match ts_client em s (quantity em) with
    | Err exc =>
        (set_controls (note_published (OrderEvent (clock w) s (error_response exc)) w1)
           (if response_has_error (error_response exc)
            then record_failure (controls w1) else reset_failures (controls w1)),
         Returned)
    | Ok response =>
        let w2 := set_risk w1 (register_trade (risk_of w1) s (quantity em)) in
        (set_controls (note_published (OrderEvent (clock w) s response) w2)
           (if response_has_error response
            then record_failure (controls w2) else reset_failures (controls w2)),
         Returned)
    end.
Proof.
  intros Hsubs Hattr Hacc. cbv zeta.
  change (bus_publish (S (S d)) (AlertEvent t s raw) w)
    with (match publish_attr w with
          | EventBus_publish =>
              fst (publish (invoke_handler (bus_publish (S d))) print_handler_error
                     (_subscribers w) (AlertEvent t s raw)
                     (note_published (AlertEvent t s raw) w))
          | wrap_publish_attr => wrap_publish (bus_publish (S d)) (AlertEvent t s raw) w
          end).
  rewrite Hattr. unfold publish. rewrite dispatch_all, Hsubs, main_handlers.
  cbn [type_of fold_left fst]. unfold after_handler. cbn [invoke_handler].
  set (w0 := note_published (AlertEvent t s raw) w).
  unfold handle_alert. cbn [event_signal].
  change (risk_of w0) with (risk_of w). rewrite Hacc.
  rewrite (publish_accepted_risk_event em w0 Hsubs Hattr).
  cbn [negb].
  destruct (ts_client em s (quantity em)) as [response | exc].
  - set (w2 := set_risk _ _).
    rewrite (publish_order_event em w2 Hsubs Hattr). reflexivity.
  - set (w1 := set_controls _ _).
    rewrite (publish_order_event em w1 Hsubs Hattr). reflexivity.
Qed.

(** X10: behind the subscribers of main, an accepted alert whose
    submission returns a response without an error registers one Position
    and leaves the failure counter at 0 and the trading flag as it was. *)
Theorem successful_alert_resets_the_counter
    (em : ExecutionManager) (w : World) (d : nat) (t : Z) (s : TradeSignal)
    (raw : string) (why : reason) (response : pyval) :
  _subscribers w = main_subscribers em ->
  publish_attr w = EventBus_publish ->
  should_accept (risk_of w) s (quantity em) = (true, why) ->
  ts_client em s (quantity em) = Ok response ->
  response_has_error response = false ->
  let r := bus_publish (S (S d)) (AlertEvent t s raw) w in
  snd r = Returned
  /\ consecutive_failures (controls (fst r)) = 0
  /\ trading_enabled (controls (fst r)) = trading_enabled (controls w)
  /\ open_positions (risk_of (fst r))
     = open_positions (risk_of w)
         ++ [ {| pos_symbol := symbol s;
                 risk := risk_contribution (risk_of w)
                           (_calculate_trade_risk (risk_of w) s (quantity em)) |} ]
  /\ output (fst r) = output w.
Proof.
  intros Hsubs Hattr Hacc Hok Hclean. cbv zeta.
  rewrite (accepted_alert_behind_main_subscribers em w d t s raw why Hsubs Hattr Hacc).
  rewrite Hok. cbv zeta. rewrite Hclean. cbn.
  rewrite round2_contribution. repeat split.
Qed.

Lemma successful_alert_resets_the_counter_witness :
  let broker := {| ts_client := fun _ _ => Ok (PDict [("OrderID", PStr "1")]); quantity := 1 |} in
  let r := bus_publish 2 (AlertEvent 0 alert_signal (raw_message alert_signal))
             (main_unpatched RiskManager_default broker 3 0) in
  consecutive_failures (controls (fst r)) = 0
  /\ open_positions (risk_of (fst r)) = [ {| pos_symbol := "AAPL"; risk := Fin 29 |} ].
Proof.
  destruct (successful_alert_resets_the_counter
              {| ts_client := fun _ _ => Ok (PDict [("OrderID", PStr "1")]); quantity := 1 |}
              (main_unpatched RiskManager_default
                 {| ts_client := fun _ _ => Ok (PDict [("OrderID", PStr "1")]);
                    quantity := 1 |} 3 0)
              0%nat 0 alert_signal (raw_message alert_signal) Accepted
              (PDict [("OrderID", PStr "1")])
              eq_refl eq_refl eq_refl eq_refl eq_refl) as (_ & H1 & _ & H2 & _).
  split; [exact H1 | exact H2].
Defined.

(** X11: behind the subscribers of main, a response that the brokerage
    returns without raising but that carries a truthy "error" entry is
    registered as a position and then counted as a failure; when that
    failure reaches the threshold the position just registered is cleared
    with all the others. *)
Theorem error_response_is_registered_then_counted
    (em : ExecutionManager) (w : World) (d : nat) (t : Z) (s : TradeSignal)
    (raw : string) (why : reason) (response : pyval) :
  _subscribers w = main_subscribers em ->
  publish_attr w = EventBus_publish ->
  should_accept (risk_of w) s (quantity em) = (true, why) ->
  ts_client em s (quantity em) = Ok response ->
  response_has_error response = true ->
  let r := bus_publish (S (S d)) (AlertEvent t s raw) w in
  consecutive_failures (controls (fst r)) = 1
  /\ ((1 >=? max_consecutive_failures (controls w)) = false ->
      trading_enabled (controls (fst r)) = trading_enabled (controls w)
      /\ open_positions (risk_of (fst r))
         = open_positions (risk_of w)
             ++ [ {| pos_symbol := symbol s;
                     risk := risk_contribution (risk_of w)
                               (_calculate_trade_risk (risk_of w) s (quantity em)) |} ])
  /\ ((1 >=? max_consecutive_failures (controls w)) = true ->
      trading_enabled (controls (fst r)) = false
      /\ open_positions (risk_of (fst r)) = []).
Proof.
  intros Hsubs Hattr Hacc Hok Herr. cbv zeta.
  rewrite (accepted_alert_behind_main_subscribers em w d t s raw why Hsubs Hattr Hacc).
  rewrite Hok. cbv zeta. rewrite Herr. cbn.
  unfold record_failure. cbn. change (0 + 1) with 1.
  destruct (1 >=? max_consecutive_failures (controls w)); cbn.
  - split; [reflexivity |]. split; [discriminate |]. intros _. split; reflexivity.
  - split; [reflexivity |]. split; [| discriminate]. intros _.
    rewrite round2_contribution. split; reflexivity.
Qed.

Lemma error_response_is_registered_then_counted_witness :
  let broker := {| ts_client := fun _ _ => Ok (PDict [("error", PStr "rejected")]);
                   quantity := 1 |} in
  let r := bus_publish 2 (AlertEvent 0 alert_signal (raw_message alert_signal))
             (main_unpatched RiskManager_default broker 3 0) in
  consecutive_failures (controls (fst r)) = 1
  /\ open_positions (risk_of (fst r)) = [ {| pos_symbol := "AAPL"; risk := Fin 29 |} ].
Proof.
  destruct (error_response_is_registered_then_counted
              {| ts_client := fun _ _ => Ok (PDict [("error", PStr "rejected")]);
                 quantity := 1 |}
              (main_unpatched RiskManager_default
                 {| ts_client := fun _ _ => Ok (PDict [("error", PStr "rejected")]);
                    quantity := 1 |} 3 0)
              0%nat 0 alert_signal (raw_message alert_signal) Accepted
              (PDict [("error", PStr "rejected")])
              eq_refl eq_refl eq_refl eq_refl eq_refl) as (H1 & H2 & _).
  split; [exact H1 | apply H2; reflexivity].
Defined.

(** X12: behind the subscribers of main, a submission that fails with an
    exception whose message is empty is not counted as a failure: the
    "error" entry of the OrderEvent is the empty string, which [on_order]
    takes for a success, and the counter is reset to 0. *)
Theorem empty_error_message_is_not_counted
    (em : ExecutionManager) (w : World) (d : nat) (t : Z) (s : TradeSignal)
    (raw : string) (why : reason) (exc : exn) :
  _subscribers w = main_subscribers em ->
  publish_attr w = EventBus_publish ->
  should_accept (risk_of w) s (quantity em) = (true, why) ->
  ts_client em s (quantity em) = Err exc ->
  str exc = ""%string ->
  let r := bus_publish (S (S d)) (AlertEvent t s raw) w in
  snd r = Returned
  /\ consecutive_failures (controls (fst r)) = 0
  /\ trading_enabled (controls (fst r)) = trading_enabled (controls w)
  /\ risk_of (fst r) = risk_of w.
Proof.
  intros Hsubs Hattr Hacc Hfail Hmsg. cbv zeta.
  rewrite (accepted_alert_behind_main_subscribers em w d t s raw why Hsubs Hattr Hacc).
  rewrite Hfail. unfold error_response, response_has_error. rewrite Hmsg. cbn.
  repeat split.
Qed.

Lemma empty_error_message_is_not_counted_witness :
  let broker := {| ts_client := fun _ _ => Err {| exn_class := "Exception"; str := "" |};
                   quantity := 1 |} in
  let w := set_controls (main_unpatched RiskManager_default broker 3 0)
             (record_failure (record_failure (EmergencyControls_init RiskManager_default 3))) in
  consecutive_failures (controls w) = 2
  /\ consecutive_failures
       (controls (fst (bus_publish 2 (AlertEvent 0 alert_signal (raw_message alert_signal)) w)))
     = 0.
Proof.
  split; [reflexivity |].
  apply (empty_error_message_is_not_counted
           {| ts_client := fun _ _ => Err {| exn_class := "Exception"; str := "" |};
              quantity := 1 |}
           (set_controls
              (main_unpatched RiskManager_default
                 {| ts_client := fun _ _ => Err {| exn_class := "Exception"; str := "" |};
                    quantity := 1 |} 3 0)
              (record_failure (record_failure (EmergencyControls_init RiskManager_default 3))))
           0%nat 0 alert_signal (raw_message alert_signal) Accepted
           {| exn_class := "Exception"; str := "" |}
           eq_refl eq_refl eq_refl eq_refl eq_refl).
Defined.

(** ** main.py: the kill switch as it is installed *)

Lemma patched_publish_raises_non_alert (d : nat) :
  forall ev w,
    publish_attr w = wrap_publish_attr ->
    is_alert ev = false ->
    bus_publish d ev w = (w, Raised RecursionError).
Proof.
  induction d as [| d IH]; intros ev w Hattr Hev; simpl; [reflexivity |].
  rewrite Hattr. unfold wrap_publish. rewrite Hev. cbn [andb].
  apply IH; assumption.
Qed.

(** X13: once main has installed the kill switch and while trading is
    enabled, no chat message has any effect: whatever the messages are and
    whatever they parse to, after all of them the emergency state, the open
    positions, the log and the list of events that reached the bus's own
    publish are what they were.  Each alert ends in RecursionError inside
    [wrap_publish], which calls itself through [bus.publish]. *)
Theorem wired_monitor_changes_nothing
    (date_parser_parse : string -> result date) (search : string -> option groups)
    (today : date) (self_channel_id : Z) (messages : list Message) (w : World) :
  publish_attr w = wrap_publish_attr ->
  is_enabled (controls w) = true ->
  monitor_run date_parser_parse search today self_channel_id messages w = w
  /\ (forall signal raw, on_message signal raw w = (w, Raised RecursionError)).
Proof.
  intros Hattr Hen.
  assert (Hmsg : forall signal raw, on_message signal raw w = (w, Raised RecursionError)).
  { intros signal raw. unfold on_message. apply patched_publish_raises; assumption. }
  split; [| exact Hmsg].
  unfold monitor_run.
  apply (fold_left_invariant _ (fun w' => w' = w) (fun _ => True)).
  - intros w' m -> _. unfold DiscordMonitor_on_message.
    destruct (author_bot m); [reflexivity |].
    destruct (negb _); [reflexivity |].
    destruct (parse_discord_message _ _ _ _) as [signal | exc].
    + rewrite Hmsg. reflexivity.
    + destruct (isinstance _ _); reflexivity.
  - reflexivity.
  - apply Forall_forall. auto.
Qed.

Lemma wired_monitor_changes_nothing_witness :
  let found := fun _ : string =>
    Some {| g_symbol := "AAPL"; g_strike := "250"; g_otype := "CALLS";
            g_expiry := "10/10"; g_entry := "1.29"; g_stop := "1.00" |} in
  let w := main_async RiskManager_default failing_broker 3 0 in
  monitor_run (fun _ => Ok (Date 2026 10 10)) found (Date 2026 11 4) 7
    [ {| author_bot := false; channel_id := 7;
         content := "AAPL - $250 CALLS EXPIRATION 10/10 $1.29 STOP LOSS AT $1.00" |};
      {| author_bot := false; channel_id := 7;
         content := "AAPL - $250 CALLS EXPIRATION 10/10 $1.29 STOP LOSS AT $1.00" |} ] w
  = w.
Proof.
  apply (proj1 (wired_monitor_changes_nothing
                  (fun _ => Ok (Date 2026 10 10))
                  (fun _ : string =>
                     Some {| g_symbol := "AAPL"; g_strike := "250"; g_otype := "CALLS";
                             g_expiry := "10/10"; g_entry := "1.29"; g_stop := "1.00" |})
                  (Date 2026 11 4) 7
                  [ {| author_bot := false; channel_id := 7;
                       content := "AAPL - $250 CALLS EXPIRATION 10/10 $1.29 STOP LOSS AT $1.00" |};
                    {| author_bot := false; channel_id := 7;
                       content := "AAPL - $250 CALLS EXPIRATION 10/10 $1.29 STOP LOSS AT $1.00" |} ]
                  (main_async RiskManager_default failing_broker 3 0)
                  eq_refl eq_refl)).
Defined.

(** X14: with the kill switch installed and trading disabled, an
    AlertEvent is dropped: [bus.publish] returns normally, a warning naming
    the symbol is logged and nothing else changes; every other event still
    ends in RecursionError, at any recursion limit. *)
Theorem kill_switch_drops_alerts_when_disabled (w : World) :
  publish_attr w = wrap_publish_attr ->
  is_enabled (controls w) = false ->
  (forall d t s raw,
      bus_publish (S d) (AlertEvent t s raw) w
      = (write (TradingDisabled (symbol s)) w, Returned))
  /\ (forall d ev, is_alert ev = false -> bus_publish d ev w = (w, Raised RecursionError))
  /\ (forall s, controls (write (TradingDisabled (symbol s)) w) = controls w
                /\ published (write (TradingDisabled (symbol s)) w) = published w
                /\ output (write (TradingDisabled (symbol s)) w)
                   = output w ++ [TradingDisabled (symbol s)]).
Proof.
  intros Hattr Hen. split; [| split].
  - intros d t s raw. apply patched_publish_drops_alert; assumption.
  - intros d ev Hev. apply patched_publish_raises_non_alert; assumption.
  - intros s. repeat split.
Qed.

Lemma kill_switch_drops_alerts_when_disabled_witness :
  let w := set_controls (main_async RiskManager_default failing_broker 3 0)
             (thrice record_failure (EmergencyControls_init RiskManager_default 3)) in
  bus_publish recursion_limit (AlertEvent 0 alert_signal (raw_message alert_signal)) w
  = (write (TradingDisabled "AAPL") w, Returned).
Proof.
  apply (proj1 (kill_switch_drops_alerts_when_disabled
                  (set_controls (main_async RiskManager_default failing_broker 3 0)
                     (thrice record_failure (EmergencyControls_init RiskManager_default 3)))
                  eq_refl eq_refl) 999%nat 0 alert_signal (raw_message alert_signal)).
Defined.

Lemma failed_alerts_never_trip_witness :
  trading_enabled
    (controls (on_messages three_alerts
                 (main_unpatched RiskManager_default failing_broker 3 0))) = true.
Proof.
  apply (failed_alerts_never_trip failing_broker RiskManager_default three_alerts
           (main_unpatched RiskManager_default failing_broker 3 0));
    try reflexivity.
  repeat constructor; eexists; (split; [reflexivity | discriminate]).
Defined.

(** ** discord_monitor.py: which messages reach the bus *)

(** X15: [on_message] calls the bus for no message written by a bot, for no
    message of another channel, for no message that does not match the
    alert pattern and for none whose expiration, once normalised, is not
    after today: it returns normally and leaves the state as it is.  For
    the other messages that parse, it makes exactly the one publish call of
    an AlertEvent carrying the parsed signal and the text. *)
Theorem monitor_filters_messages
    (date_parser_parse : string -> result date) (search : string -> option groups)
    (today : date) (self_channel_id : Z) (message : Message) (w : World) :
  let run := DiscordMonitor_on_message date_parser_parse search today self_channel_id in
  (author_bot message = true -> run message w = (w, Returned))
  /\ (channel_id message <> self_channel_id -> run message w = (w, Returned))
  /\ (search (content message) = None -> run message w = (w, Returned))
  /\ (forall g expiration,
        search (content message) = Some g ->
        _normalize_expiration date_parser_parse today (g_expiry g) = Ok expiration ->
        date_leb expiration today = true ->
        run message w = (w, Returned))
  /\ (forall signal,
        author_bot message = false ->
        channel_id message = self_channel_id ->
        parse_discord_message date_parser_parse search today (content message) = Ok signal ->
        run message w
        = bus_publish recursion_limit (AlertEvent (clock w) signal (content message)) w).
Proof.
  cbv zeta. unfold DiscordMonitor_on_message.
  split; [intros ->; reflexivity |].
  split.
  { intros Hne. destruct (author_bot message); [reflexivity |].
    destruct (Z.eqb_spec (channel_id message) self_channel_id); [contradiction | reflexivity]. }
  split.
  { intros Hnone. destruct (author_bot message); [reflexivity |].
    destruct (negb _); [reflexivity |].
    unfold parse_discord_message. rewrite Hnone. reflexivity. }
  split.
  { intros g expiration Hg Hn Hpast. destruct (author_bot message); [reflexivity |].
    destruct (negb _); [reflexivity |].
    destruct (parse_rejects_past date_parser_parse search today (content message) g
                expiration Hg Hn Hpast) as [msg ->].
    reflexivity. }
  intros signal -> -> ->. rewrite Z.eqb_refl. reflexivity.
Qed.

Lemma monitor_filters_messages_witness :
  DiscordMonitor_on_message (fun _ => Ok (Date 2026 10 10)) (fun _ => None) (Date 2026 11 4) 7
    {| author_bot := false; channel_id := 7; content := "Invalid format" |}
    (main_unpatched RiskManager_default failing_broker 3 0)
  = (main_unpatched RiskManager_default failing_broker 3 0, Returned).
Proof.
  apply (proj1 (proj2 (proj2 (monitor_filters_messages
                                (fun _ => Ok (Date 2026 10 10)) (fun _ => None)
                                (Date 2026 11 4) 7
                                {| author_bot := false; channel_id := 7;
                                   content := "Invalid format" |}
                                (main_unpatched RiskManager_default failing_broker 3 0))))).
  reflexivity.
Defined.

(** ** signal_parser.py: dates, tokens and the fields of a parsed signal *)


Lemma date_leb_next_year (today dt : date) :
  year today < year dt -> date_leb dt today = false.
Proof.
  intros H. unfold date_leb.
  destruct (Z.ltb_spec (year dt) (year today)); [lia |].
  destruct (Z.eqb_spec (year dt) (year today)); [lia |]. reflexivity.
Qed.

Lemma date_leb_older_year (today dt : date) :
  year dt < year today -> date_leb dt today = true.
Proof.
  intros H. unfold date_leb.
  destruct (Z.ltb_spec (year dt) (year today)); [reflexivity | lia].
Qed.

(** X17: one roll is what the normalisation does, no more and no less.  A
    date of the current year or of a later one always comes out strictly
    after today, when it comes out at all, so that such a token is never
    refused for not being in the future; a date two or more years back
    still lies in the past after the roll.  The fallback for a token of
    two parts, MM/DD, takes the year of today. *)
Theorem one_roll_reaches_the_future_or_not
    (date_parser_parse : string -> result date) (today : date)
    (token : string) (dt0 : date) :
  expiry_date date_parser_parse today token = Ok dt0 ->
  (year today <= year dt0 ->
   forall dt, _normalize_expiration date_parser_parse today token = Ok dt ->
              date_ltb today dt = true)
  /\ (year dt0 + 1 < year today ->
      forall dt, _normalize_expiration date_parser_parse today token = Ok dt ->
                 date_leb dt today = true)
  /\ (forall m d,
        split "/" token = [m; d] ->
        expiry_from_parts today token = Ok dt0 ->
        year dt0 = year today).
Proof.
  intros He. unfold _normalize_expiration. rewrite He. cbn [bind]. unfold roll_forward.
  split; [| split].
  - intros Hy dt. unfold date_ltb.
    destruct (date_leb dt0 today) eqn:Hpast.
    + intros Hm. apply mk_date_fields in Hm. subst dt.
      rewrite date_leb_next_year; [reflexivity | cbn; lia].
    + intros E. injection E as <-. rewrite Hpast. reflexivity.
  - intros Hy dt.
    rewrite (date_leb_older_year today dt0) by lia.
    intros Hm. apply mk_date_fields in Hm. subst dt.
    apply date_leb_older_year. cbn. lia.
  - intros m d Hs. unfold expiry_from_parts. rewrite Hs.
    destruct (py_int m) as [mv |]; cbn [bind]; [| discriminate].
    destruct (py_int d) as [dv |]; cbn [bind]; [| discriminate].
    intros Hm. apply mk_date_fields in Hm. subst dt0. reflexivity.
Qed.

Lemma one_roll_reaches_the_future_or_not_witness :
  date_ltb (Date 2026 11 4) (Date 2027 10 10) = true.
Proof.
  apply (proj1 (one_roll_reaches_the_future_or_not
                  (fun _ => Err (ValueError "Unknown string format"))
                  (Date 2026 11 4) "10/10" (Date 2026 10 10) eq_refl));
    [simpl; lia | reflexivity].
Defined.



Lemma upper_char_not_lower (c : ascii) : is_lower (upper_char c) = false.
Proof.
  destruct c as [[] [] [] [] [] [] [] []]; reflexivity.
Qed.

Lemma upper_has_no_lower (s : string) : has_lower (upper s) = false.
Proof.
  induction s as [| c rest IH]; [reflexivity |].
  cbn [upper map_string has_lower]. rewrite upper_char_not_lower.
  exact IH.
Qed.

Lemma digits_value_nonneg (s : string) :
  forall acc v, 0 <= acc -> digits_value acc s = Some v -> 0 <= v.
Proof.
  induction s as [| c rest IH]; intros acc v Hacc; cbn [digits_value].
  - intros E. injection E as <-. exact Hacc.
  - destruct (is_digit c) eqn:Hd; [| discriminate].
    apply IH. unfold is_digit in Hd.
    apply andb_true_iff in Hd as [Hlo _]. apply Z.leb_le in Hlo. lia.
Qed.

Lemma digits_nonneg (s : string) (v : Z) : digits s = Some v -> 0 <= v.
Proof.
  unfold digits. destruct s; [discriminate |].
  apply digits_value_nonneg. lia.
Qed.

Lemma py_float_nonneg (s : string) (q : Q) : py_float s = Ok q -> (0 <= q)%Q.
Proof.
  unfold py_float.
  destruct (split "." s) as [| ip [| fp [| x rest]]]; try discriminate.
  - destruct (digits ip) as [v |] eqn:Ev; [| discriminate].
    intros E. injection E as <-. apply digits_nonneg in Ev.
    unfold Qle. simpl. lia.
  - destruct (digits ip) as [v |] eqn:Ev; [| discriminate].
    destruct (digits fp) as [f |] eqn:Ef; [| discriminate].
    intros E. injection E as <-. apply digits_nonneg in Ev, Ef.
    rewrite Qred_correct.
    assert (Hv : (0 <= inject_Z v)%Q) by (unfold Qle; simpl; lia).
    assert (Hf : (0 <= inject_Z f / inject_Z (10 ^ Z.of_nat (String.length fp)))%Q).
    { apply Qmult_le_0_compat; [unfold Qle; simpl; lia |].
      apply Qinv_le_0_compat. unfold Qle; simpl.
      pose proof (Z.pow_nonneg 10 (Z.of_nat (String.length fp))). lia. }
    lra.
Qed.

(** X19: every TradeSignal that [parse_discord_message] returns comes from
    a match of the pattern and carries the matched symbol in upper case,
    with no lower-case letter left, an option type that is "Call" or "Put",
    the original message as raw_message, and a strike, an entry price and a
    stop price that are not negative. *)
Theorem parsed_signal_is_normalised
    (date_parser_parse : string -> result date) (search : string -> option groups)
    (today : date) (message : string) (signal : TradeSignal) :
  parse_discord_message date_parser_parse search today message = Ok signal ->
  exists g,
    search message = Some g
    /\ symbol signal = upper (g_symbol g)
    /\ has_lower (symbol signal) = false
    /\ (option_type signal = "Call"%string \/ option_type signal = "Put"%string)
    /\ raw_message signal = message
    /\ py_float (g_strike g) = Ok (strike signal)
    /\ py_float (g_entry g) = Ok (entry_price signal)
    /\ py_float (g_stop g) = Ok (stop_price signal)
    /\ (0 <= strike signal /\ 0 <= entry_price signal /\ 0 <= stop_price signal)%Q.
Proof.
  unfold parse_discord_message.
  destruct (search message) as [g |]; [| discriminate].
  destruct (reraise_value_error _) as [expiration | exc]; cbn [bind]; [| discriminate].
  destruct (py_float (g_strike g)) as [k |] eqn:Ek; cbn [bind reraise_any]; [| discriminate].
  destruct (py_float (g_entry g)) as [entry |] eqn:Ee; cbn [bind reraise_any]; [| discriminate].
  destruct (py_float (g_stop g)) as [stop |] eqn:Es; cbn [bind reraise_any]; [| discriminate].
  unfold TradeSignal_init, _upper_symbol. cbn [bind].
  destruct (_normalize_option_type (g_otype g)) as [otype |] eqn:Eo; cbn [bind]; [| discriminate].
  destruct (_future_date today expiration) as [dt |]; cbn [bind]; [| discriminate].
  intros E. injection E as <-. exists g. cbn.
  split; [reflexivity |]. split; [reflexivity |].
  split; [apply upper_has_no_lower |].
  split.
  { unfold _normalize_option_type in Eo.
    destruct (startswith _ "c"); [injection Eo as <-; left; reflexivity |].
    destruct (startswith _ "p"); [injection Eo as <-; right; reflexivity | discriminate]. }
  split; [reflexivity |].
  repeat split; eauto using py_float_nonneg.
Qed.

Lemma parsed_signal_is_normalised_witness :
  exists g,
    (fun _ : string =>
       Some {| g_symbol := "aapl"; g_strike := "250"; g_otype := "calls";
               g_expiry := "10/10"; g_entry := "1.29"; g_stop := "1.00" |})
      "aapl - $250 calls expiration 10/10 $1.29 stop loss at $1.00" = Some g
    /\ upper (g_symbol g) = "AAPL"%string.
Proof.
  destruct (parsed_signal_is_normalised
              (fun _ => Ok (Date 2026 10 10))
              (fun _ : string =>
                 Some {| g_symbol := "aapl"; g_strike := "250"; g_otype := "calls";
                         g_expiry := "10/10"; g_entry := "1.29"; g_stop := "1.00" |})
              (Date 2026 11 4)
              "aapl - $250 calls expiration 10/10 $1.29 stop loss at $1.00"
              {| symbol := "AAPL"; strike := 250; option_type := "Call";
                 expiration_date := Date 2027 10 10;
                 entry_price := 129 # 100; stop_price := 1;
                 raw_message := "aapl - $250 calls expiration 10/10 $1.29 stop loss at $1.00" |}
              eq_refl) as (g & Hg & Hsym & _).
  exists g. split; [exact Hg |]. symmetry. exact Hsym.
Defined.

(** ** tradestation_client.py: the symbol of the option *)

Lemma append_cons (c : ascii) (a b : string) :
  String.append (String c a) b = String c (String.append a b).
Proof. reflexivity. Qed.

Lemma append_nil_l (a : string) : String.append EmptyString a = a.
Proof. reflexivity. Qed.

Lemma append_nil_r (a : string) : String.append a EmptyString = a.
Proof. induction a as [| c a IH]; [reflexivity | rewrite append_cons, IH; reflexivity]. Qed.

Lemma length_append (a b : string) :
  String.length (String.append a b) = (String.length a + String.length b)%nat.
Proof.
  induction a as [| c a IH]; [reflexivity |].
  rewrite append_cons. cbn [String.length]. rewrite IH. reflexivity.
Qed.

Lemma append_assoc (a b c : string) :
  String.append (String.append a b) c = String.append a (String.append b c).
Proof.
  induction a as [| x a IH]; [reflexivity |].
  rewrite !append_cons, IH. reflexivity.
Qed.

Lemma fixed_digits_length (k : nat) : forall n, String.length (fixed_digits k n) = k.
Proof.
  induction k as [| k IH]; intros n; cbn [fixed_digits]; [reflexivity |].
  rewrite length_append, IH. simpl. lia.
Qed.

(** A field of [a + b] digits is the field of the [a] high digits followed
    by the field of the [b] low ones. *)
Lemma fixed_digits_split (a b : nat) :
  forall n, fixed_digits (a + b) n
            = String.append (fixed_digits a (n / 10 ^ Z.of_nat b)) (fixed_digits b n).
Proof.
  induction b as [| b IH]; intros n.
  - rewrite Nat.add_0_r. cbn [fixed_digits]. change (10 ^ Z.of_nat 0) with 1.
    rewrite Z.div_1_r, append_nil_r. reflexivity.
  - replace (a + S b)%nat with (S (a + b)) by lia. cbn [fixed_digits].
    rewrite IH, append_assoc.
    replace (n / 10 / 10 ^ Z.of_nat b) with (n / 10 ^ Z.of_nat (S b)); [reflexivity |].
    rewrite Nat2Z.inj_succ, Z.pow_succ_r by lia.
    rewrite Z.div_div by lia. reflexivity.
Qed.

Lemma digit_char_not_point (d : Z) : Ascii.eqb (digit_char d) "." = false.
Proof.
  unfold digit_char.
  assert (H : (Z.to_nat (d mod 10) < 10)%nat).
  { pose proof (Z.mod_pos_bound d 10). lia. }
  destruct (Z.to_nat (d mod 10)) as [| [| [| [| [| [| [| [| [| [| n]]]]]]]]]];
    try reflexivity; lia.
Qed.

Lemma remove_char_append (c : ascii) (a b : string) :
  remove_char c (String.append a b) = String.append (remove_char c a) (remove_char c b).
Proof.
  induction a as [| x a IH]; [reflexivity |].
  rewrite append_cons. cbn [remove_char].
  destruct (Ascii.eqb x c); [exact IH | rewrite append_cons, IH; reflexivity].
Qed.

Lemma remove_point_fixed_digits (k : nat) :
  forall n, remove_char "." (fixed_digits k n) = fixed_digits k n.
Proof.
  induction k as [| k IH]; intros n; cbn [fixed_digits]; [reflexivity |].
  rewrite remove_char_append, IH. cbn [remove_char].
  rewrite digit_char_not_point. reflexivity.
Qed.

Lemma ndigits_aux_bound (fuel : nat) :
  forall n k, (1 <= k)%nat -> n < 10 ^ Z.of_nat k -> (ndigits_aux fuel n <= k)%nat.
Proof.
  induction fuel as [| fuel IH]; intros n k Hk Hn; cbn [ndigits_aux]; [exact Hk |].
  destruct (Z.ltb_spec n 10); [exact Hk |].
  destruct k as [| [| k]]; [lia | simpl in Hn; lia |].
  apply le_n_S. apply IH; [lia |].
  rewrite Nat2Z.inj_succ, Z.pow_succ_r in Hn by lia.
  apply Z.div_lt_upper_bound; lia.
Qed.

Lemma spaces_length (n : nat) : String.length (spaces n) = n.
Proof. induction n; simpl; [reflexivity | rewrite IHn; reflexivity]. Qed.

Lemma round_half_even_nonneg (q : Q) : (0 <= q)%Q -> 0 <= round_half_even q.
Proof.
  intros H. unfold round_half_even.
  assert (Hf : 0 <= Qfloor q).
  { change 0 with (Qfloor (inject_Z 0)). apply Qfloor_resp_le. exact H. }
  destruct (_ ?= _)%Q; [destruct (Z.even _) | |]; lia.
Qed.

(** The strike field for a strike that is not negative and that, in
    thousandths, fits seven digits. *)
Lemma strike_formatted_seven_digits (x : Q) :
  (0 <= x)%Q ->
  round_half_even (x * 1000) < 10 ^ 7 ->
  strike_formatted x = fixed_digits 7 (round_half_even (x * 1000)).
Proof.
  intros Hx Hfit. unfold strike_formatted, format_08_3f.
  assert (Ha : round_half_even (Qabs x * 1000) = round_half_even (x * 1000)).
  { apply round_half_even_comp. rewrite Qabs_pos by exact Hx. reflexivity. }
  rewrite Ha.
  replace (Qltb x 0) with false
    by (symmetry; apply Qltb_ge; exact Hx).
  set (t := round_half_even (x * 1000)) in *.
  assert (Hn : (ndigits (t / 1000) <= 4)%nat).
  { apply ndigits_aux_bound; [lia |].
    apply Z.div_lt_upper_bound; [lia |]. simpl. simpl in Hfit. lia. }
  replace (Nat.max 4 (ndigits (t / 1000))) with 4%nat by lia.
  rewrite append_nil_l, remove_char_append. cbn [remove_char].
  change (Ascii.eqb "." ".") with true. cbv iota.
  rewrite !remove_point_fixed_digits.
  change 7%nat with (4 + 3)%nat. rewrite fixed_digits_split. reflexivity.
Qed.

(** X20: for a signal whose symbol has at most six characters and whose
    strike is not negative and below 9999.9995, the option symbol that
    [submit_bracket_order] sends has exactly 20 characters: the symbol
    padded with spaces to six, the two last digits of the year, the month
    and the day on two digits each, the letter C or P, and the strike in
    thousandths on seven digits.  The letter is C for the option type
    "Call" and P for "Put", the two values the parser produces. *)
Theorem option_symbol_layout (signal : TradeSignal) :
  (String.length (symbol signal) <= 6)%nat ->
  (0 <= strike signal)%Q ->
  round_half_even (strike signal * 1000) < 10 ^ 7 ->
  option_symbol signal
  = String.append (String.append (symbol signal) (spaces (6 - String.length (symbol signal))))
      (String.append (fixed_digits 2 (year (expiration_date signal)))
         (String.append
            (String.append (fixed_digits 2 (month (expiration_date signal)))
               (fixed_digits 2 (day (expiration_date signal))))
            (String.append (type_code (option_type signal))
               (fixed_digits 7 (round_half_even (strike signal * 1000))))))
  /\ String.length (option_symbol signal) = 20%nat
  /\ (option_type signal = "Call"%string -> type_code (option_type signal) = "C"%string)
  /\ (option_type signal = "Put"%string -> type_code (option_type signal) = "P"%string).
Proof.
  intros Hlen Hpos Hfit.
  assert (E : strike_formatted (strike signal)
              = fixed_digits 7 (round_half_even (strike signal * 1000)))
    by (apply strike_formatted_seven_digits; assumption).
  split; [| split; [| split]].
  - unfold option_symbol, ljust, strftime_y, strftime_md. rewrite E. reflexivity.
  - unfold option_symbol, ljust, strftime_y, strftime_md. rewrite E.
    rewrite !length_append, !fixed_digits_length, spaces_length.
    assert (Ht : String.length (type_code (option_type signal)) = 1%nat)
      by (unfold type_code; destruct (startswith _ _); reflexivity).
    rewrite Ht. lia.
  - intros ->. reflexivity.
  - intros ->. reflexivity.
Qed.

Lemma option_symbol_layout_witness :
  option_symbol alert_signal = "AAPL  271010C0250000"%string
  /\ String.length (option_symbol alert_signal) = 20%nat.
Proof.
  destruct (option_symbol_layout alert_signal) as (H1 & H2 & _).
  - simpl. lia.
  - unfold Qle. simpl. lia.
  - reflexivity.
  - split; [rewrite H1; reflexivity | exact H2].
Defined.

(** ** main.py: substitution of environment variables *)

Scheme yaml_ind' := Induction for yaml Sort Prop
  with yaml_items_ind' := Induction for yaml_items Sort Prop
  with yaml_elems_ind' := Induction for yaml_elems Sort Prop.
Combined Scheme yaml_mutual_ind from yaml_ind', yaml_items_ind', yaml_elems_ind'.

Lemma count_char_cons_0 (c x : ascii) (s : string) :
  count_char c (String x s) = 0%nat -> Ascii.eqb x c = false /\ count_char c s = 0%nat.
Proof.
  cbn [count_char]. destruct (Ascii.eqb x c); [discriminate | auto].
Qed.

Lemma count_char_append (c : ascii) (a b : string) :
  count_char c (String.append a b) = (count_char c a + count_char c b)%nat.
Proof.
  induction a as [| x a IH]; [reflexivity |].
  rewrite append_cons. cbn [count_char]. rewrite IH. lia.
Qed.

Lemma take_until_brace_app (body after : string) :
  count_char "}" body = 0%nat ->
  take_until_brace (String.append body (String "}" after)) = Some (body, after).
Proof.
  induction body as [| c body IH]; intros H.
  - reflexivity.
  - apply count_char_cons_0 in H as [Hc Hb].
    rewrite append_cons. cbn [take_until_brace]. rewrite Hc, (IH Hb). reflexivity.
Qed.

Lemma take_until_brace_none (s : string) :
  count_char "}" s = 0%nat -> take_until_brace s = None.
Proof.
  induction s as [| c s IH]; intros H; [reflexivity |].
  apply count_char_cons_0 in H as [Hc Hs].
  cbn [take_until_brace]. rewrite Hc, (IH Hs). reflexivity.
Qed.

Lemma take_until_brace_shorter (s body after : string) :
  take_until_brace s = Some (body, after) -> (String.length after < String.length s)%nat.
Proof.
  revert body after. induction s as [| c s IH]; intros body after; [discriminate |].
  cbn [take_until_brace String.length].
  destruct (Ascii.eqb c "}").
  - intros E. injection E as _ <-. lia.
  - destruct (take_until_brace s) as [[b a] |] eqn:E; [| discriminate].
    intros E'. injection E' as _ <-. specialize (IH b a eq_refl). lia.
Qed.

Lemma starts_with_2_shorter (c1 c2 : ascii) (s inner : string) :
  starts_with_2 c1 c2 s = Some inner -> String.length s = S (S (String.length inner)).
Proof.
  destruct s as [| a [| b s]]; try discriminate. cbn [starts_with_2].
  destruct (_ && _); [| discriminate]. intros E. injection E as <-. reflexivity.
Qed.

Section Substitution.
Variable env : gmap string string.

Lemma substitute_str_aux_fuel (f1 : nat) :
  forall f2 s,
    (String.length s <= f1)%nat -> (String.length s <= f2)%nat ->
    substitute_str_aux f1 env s = substitute_str_aux f2 env s.
Proof.
  induction f1 as [| f1 IH]; intros f2 s H1 H2.
  - destruct s; [| cbn [String.length] in H1; lia].
    destruct f2; reflexivity.
  - destruct s as [| c rest]; [destruct f2; reflexivity |].
    destruct f2 as [| f2]; [cbn [String.length] in H2; lia |].
    cbn [substitute_str_aux]. cbn [String.length] in H1, H2.
    destruct (starts_with_2 "$" "{" (String c rest)) as [inner |] eqn:Es.
    + apply starts_with_2_shorter in Es. cbn [String.length] in Es.
      destruct (take_until_brace inner) as [[[| b body] after] |] eqn:Et.
      * f_equal. apply IH; lia.
      * apply take_until_brace_shorter in Et.
        f_equal. apply IH; lia.
      * f_equal. apply IH; lia.
    + f_equal. apply IH; lia.
Qed.

Lemma substitute_str_unfold (c : ascii) (rest : string) :
  substitute_str env (String c rest)
  = match starts_with_2 "$" "{" (String c rest) with
    | Some inner =>
        match take_until_brace inner with
        | Some (String b body, after) =>
            String.append (replacer env (String b body)) (substitute_str env after)
        | _ => String c (substitute_str env rest)
        end
    | None => String c (substitute_str env rest)
    end.
Proof.
  unfold substitute_str. cbn [String.length substitute_str_aux].
  destruct (starts_with_2 "$" "{" (String c rest)) as [inner |] eqn:Es; [| reflexivity].
  apply starts_with_2_shorter in Es. cbn [String.length] in Es.
  destruct (take_until_brace inner) as [[[| b body] after] |] eqn:Et; try reflexivity.
  apply take_until_brace_shorter in Et.
  f_equal. apply substitute_str_aux_fuel; lia.
Qed.

Lemma substitute_str_no_close (s : string) :
  count_char "}" s = 0%nat -> substitute_str env s = s.
Proof.
  induction s as [| c rest IH]; intros H; [reflexivity |].
  apply count_char_cons_0 in H as [Hc Hrest].
  rewrite substitute_str_unfold.
  destruct (starts_with_2 "$" "{" (String c rest)) as [inner |] eqn:Es.
  - assert (Hinner : count_char "}" inner = 0%nat).
    { destruct rest as [| b rest']; [discriminate |]. cbn [starts_with_2] in Es.
      destruct (_ && _); [| discriminate]. injection Es as <-.
      apply count_char_cons_0 in Hrest as [_ H]. exact H. }
    rewrite (take_until_brace_none _ Hinner), (IH Hrest). reflexivity.
  - rewrite (IH Hrest). reflexivity.
Qed.

Lemma substitute_str_plain_char (c : ascii) (rest : string) :
  Ascii.eqb c "$" = false ->
  substitute_str env (String c rest) = String c (substitute_str env rest).
Proof.
  intros Hc. rewrite substitute_str_unfold.
  destruct rest as [| b rest']; [reflexivity |].
  cbn [starts_with_2]. rewrite Hc. reflexivity.
Qed.

Lemma substitute_str_no_dollar (s : string) :
  count_char "$" s = 0%nat -> substitute_str env s = s.
Proof.
  induction s as [| c rest IH]; intros H; [reflexivity |].
  apply count_char_cons_0 in H as [Hc Hrest].
  rewrite substitute_str_plain_char by exact Hc. rewrite (IH Hrest). reflexivity.
Qed.

Lemma substitute_str_reference (body rest : string) :
  body <> EmptyString ->
  count_char "}" body = 0%nat ->
  substitute_str env (String "$" (String "{" (String.append body (String "}" rest))))
  = String.append (replacer env body) (substitute_str env rest).
Proof.
  intros Hne Hb. rewrite substitute_str_unfold.
  cbn [starts_with_2]. change (Ascii.eqb "$" "$" && Ascii.eqb "{" "{") with true. cbv iota.
  rewrite (take_until_brace_app body rest Hb).
  destruct body; [contradiction | reflexivity].
Qed.

Lemma split_default_app (var default_ : string) :
  split_default var = None ->
  split_default (String.append var (String ":" (String "-" default_)))
  = Some (var, default_).
Proof.
  induction var as [| c var IH]; intros H.
  - reflexivity.
  - rewrite append_cons. cbn [split_default] in *.
    destruct (starts_with_2 ":" "-" (String c var)) as [x |] eqn:Es; [discriminate |].
    destruct (split_default var) as [[v d] |] eqn:Ev; [discriminate |].
    rewrite (IH eq_refl).
    replace (starts_with_2 ":" "-"
               (String c (String.append var (String ":" (String "-" default_)))))
      with (@None string); [reflexivity |].
    destruct var as [| b var'].
    + rewrite append_nil_l. cbn [starts_with_2].
      change (Ascii.eqb ":" "-") with false. rewrite andb_false_r. reflexivity.
    + rewrite append_cons. cbn [starts_with_2] in *.
      destruct (Ascii.eqb c ":" && Ascii.eqb b "-"); [discriminate | reflexivity].
Qed.
End Substitution.

(** X21: in a string, the first reference "${...}" with a non-empty text
    without "}" between the braces is replaced by what [replacer] gives
    for that text, the characters before it (which hold no "$") are kept,
    and the substitution goes on in what follows the closing brace; the
    replacement itself is not looked at again.  A string with no "$", or
    with no "}", is returned as it is, so that "${}" and an unclosed
    "${VAR" stay in the text. *)
Theorem substitute_str_first_reference
    (env : gmap string string) (before body rest : string) :
  (count_char "$" before = 0%nat ->
   body <> EmptyString ->
   count_char "}" body = 0%nat ->
   substitute_str env
     (String.append before (String "$" (String "{" (String.append body (String "}" rest)))))
   = String.append before (String.append (replacer env body) (substitute_str env rest)))
  /\ (count_char "$" rest = 0%nat -> substitute_str env rest = rest)
  /\ (count_char "}" rest = 0%nat -> substitute_str env rest = rest).
Proof.
  split; [| split; [apply substitute_str_no_dollar | apply substitute_str_no_close]].
  intros Hb Hne Hc.
  induction before as [| c before IH].
  - rewrite !append_nil_l. apply substitute_str_reference; assumption.
  - apply count_char_cons_0 in Hb as [Hd Hrest].
    rewrite !append_cons, substitute_str_plain_char by exact Hd.
    rewrite (IH Hrest). reflexivity.
Qed.

Lemma substitute_str_first_reference_witness :
  substitute_str {[ "HOME"%string := "${USER}"%string ]} "cd ${HOME}/${x"
  = "cd ${USER}/${x"%string.
Proof.
  assert (Hne : "HOME"%string <> EmptyString) by discriminate.
  exact (proj1 (substitute_str_first_reference
                  {[ "HOME"%string := "${USER}"%string ]} "cd " "HOME" "/${x")
           eq_refl Hne eq_refl).
Defined.

(** X22: a string that is one reference to a variable whose name holds no
    ":-" and no "}" becomes the value of the variable when it is set; when
    it is not set, "${VAR}" becomes the empty string and "${VAR:-default}"
    becomes the default. *)
Theorem reference_gives_value_or_default
    (env : gmap string string) (var default_ : string) :
  split_default var = None ->
  count_char "}" var = 0%nat ->
  count_char "}" default_ = 0%nat ->
  (var <> EmptyString ->
   substitute_str env (String "$" (String "{" (String.append var "}")))
   = default EmptyString (env !! var))
  /\ substitute_str env
       (String "$" (String "{"
          (String.append (String.append var (String ":" (String "-" default_))) "}")))
     = default default_ (env !! var).
Proof.
  intros Hsep Hv Hd. split.
  - intros Hne.
    rewrite (substitute_str_reference env var EmptyString Hne Hv).
    change (substitute_str env "") with EmptyString. rewrite append_nil_r.
    unfold replacer, getenv. rewrite Hsep. reflexivity.
  - rewrite (substitute_str_reference env
               (String.append var (String ":" (String "-" default_))) EmptyString).
    + change (substitute_str env "") with EmptyString. rewrite append_nil_r.
      unfold replacer, getenv. rewrite (split_default_app var default_ Hsep). reflexivity.
    + destruct var; discriminate.
    + rewrite count_char_append. cbn [count_char].
      change (Ascii.eqb ":" "}") with false. change (Ascii.eqb "-" "}") with false.
      cbv iota. lia.
Qed.

Lemma reference_gives_value_or_default_witness :
  substitute_str {[ "TS_BASE_URL"%string := "https://api"%string ]} "${TS_BASE_URL}"
  = "https://api"%string
  /\ substitute_str ∅ "${TS_ACCOUNT_KEY:-SIM123}" = "SIM123"%string.
Proof.
  assert (Hne : "TS_BASE_URL"%string <> EmptyString) by discriminate.
  split.
  - exact (proj1 (reference_gives_value_or_default
                    {[ "TS_BASE_URL"%string := "https://api"%string ]} "TS_BASE_URL" ""
                    eq_refl eq_refl eq_refl) Hne).
  - exact (proj2 (reference_gives_value_or_default ∅ "TS_ACCOUNT_KEY" "SIM123"
                    eq_refl eq_refl eq_refl)).
Defined.

Lemma substitute_structure (env : gmap string string) :
  (forall v : yaml,
      (yaml_has_char "$" v = false -> substitute env v = v)
      /\ (yaml_has_char "}" v = false -> substitute env v = v))
  /\ (forall items : yaml_items,
        item_keys (substitute_items env items) = item_keys items
        /\ (items_have_char "$" items = false -> substitute_items env items = items)
        /\ (items_have_char "}" items = false -> substitute_items env items = items))
  /\ (forall elems : yaml_elems,
        elems_length (substitute_elems env elems) = elems_length elems
        /\ (elems_have_char "$" elems = false -> substitute_elems env elems = elems)
        /\ (elems_have_char "}" elems = false -> substitute_elems env elems = elems)).
Proof.
  apply yaml_mutual_ind.
  - intros s. cbn [yaml_has_char substitute]. unfold has_char.
    split; intros H; apply negb_false_iff, Nat.eqb_eq in H; f_equal;
      [apply substitute_str_no_dollar | apply substitute_str_no_close]; exact H.
  - intros items (_ & H1 & H2). cbn [yaml_has_char substitute].
    split; intros H; f_equal; auto.
  - intros elems (_ & H1 & H2). cbn [yaml_has_char substitute].
    split; intros H; f_equal; auto.
  - intros a. split; reflexivity.
  - repeat split.
  - intros k v [Hv1 Hv2] rest (Hk & H1 & H2).
    cbn [substitute_items item_keys items_have_char].
    split; [rewrite Hk; reflexivity |].
    split; intros H; apply orb_false_iff in H as [Ha Hb]; f_equal; auto.
  - repeat split.
  - intros v [Hv1 Hv2] rest (Hl & H1 & H2).
    cbn [substitute_elems elems_length elems_have_char].
    split; [rewrite Hl; reflexivity |].
    split; intros H; apply orb_false_iff in H as [Ha Hb]; f_equal; auto.
Qed.

(** X23: [substitute] keeps the shape of a configuration: the keys of
    every mapping stay the same and in the same order, every sequence
    keeps its length, and a scalar that is not a string is returned as it
    is; a configuration none of whose strings holds a "$", or none of
    whose strings holds a "}", comes back unchanged, whatever the
    environment. *)
Theorem substitute_keeps_shape (env : gmap string string) (value : yaml) :
  (forall items, value = YDict items ->
     exists items', substitute env value = YDict items'
                    /\ item_keys items' = item_keys items)
  /\ (forall elems, value = YList elems ->
        exists elems', substitute env value = YList elems'
                       /\ elems_length elems' = elems_length elems)
  /\ (forall a, value = YOther a -> substitute env value = value)
  /\ (yaml_has_char "$" value = false -> substitute env value = value)
  /\ (yaml_has_char "}" value = false -> substitute env value = value).
Proof.
  destruct (substitute_structure env) as (Hv & Hi & He).
  split; [| split; [| split; [| split]]].
  - intros items ->. eexists. split; [reflexivity | apply Hi].
  - intros elems ->. eexists. split; [reflexivity | apply He].
  - intros a ->. reflexivity.
  - apply Hv.
  - apply Hv.
Qed.

Lemma substitute_keeps_shape_witness :
  substitute {[ "DISCORD_TOKEN"%string := "secret"%string ]}
    (YDict (ItemsCons "risk" (YDict (ItemsCons "max_open_positions" (YOther (PInt 5)) ItemsNil))
              (ItemsCons "channels" (YList (ElemsCons (YStr "alerts") ElemsNil)) ItemsNil)))
  = YDict (ItemsCons "risk" (YDict (ItemsCons "max_open_positions" (YOther (PInt 5)) ItemsNil))
             (ItemsCons "channels" (YList (ElemsCons (YStr "alerts") ElemsNil)) ItemsNil)).
Proof.
  apply (proj1 (proj2 (proj2 (proj2 (substitute_keeps_shape
           {[ "DISCORD_TOKEN"%string := "secret"%string ]}
           (YDict (ItemsCons "risk"
                     (YDict (ItemsCons "max_open_positions" (YOther (PInt 5)) ItemsNil))
                     (ItemsCons "channels" (YList (ElemsCons (YStr "alerts") ElemsNil))
                        ItemsNil)))))))).
  reflexivity.
Defined.

(** ** tradestation_client.py: when the access token is refreshed *)

(** X24: after a refresh at time [t] that brought a non-empty token valid
    for [e] seconds, every call of [_get_access_token] made before
    [t + e - 60] returns that token and leaves the state alone, whatever
    the token endpoint would answer; from [t + e - 60] on, a call goes to
    the endpoint again.  A client fresh from [__init__] always goes to the
    endpoint, and with a credential missing or empty the refresh raises
    RuntimeError and leaves the state as it was. *)
Theorem access_token_is_cached_until_expiry
    (creds : Credentials) (token : string) (t e : Q)
    (post : result TokenPayload) (now later : Q) (cache : TokenCache) :
  truthy_str (client_id creds) && truthy_str (client_secret creds)
  && truthy_str (refresh_token creds) && truthy_str (redirect_uri creds) = true ->
  token <> EmptyString ->
  _refresh_access_token creds
    (Ok {| payload_access_token := Some token; payload_expires_in := ExpiresIn e |}) t cache
  = ({| _access_token := Some token; _token_expires_at := (t + e - 60)%Q |}, Returned)
  /\ ((now < t + e - 60)%Q ->
      _get_access_token creds post now later
        {| _access_token := Some token; _token_expires_at := (t + e - 60)%Q |}
      = ({| _access_token := Some token; _token_expires_at := (t + e - 60)%Q |}, Ok token))
  /\ ((t + e - 60 <= now)%Q ->
      fst (_get_access_token creds post now later
             {| _access_token := Some token; _token_expires_at := (t + e - 60)%Q |})
      = fst (_refresh_access_token creds post later
               {| _access_token := Some token; _token_expires_at := (t + e - 60)%Q |}))
  /\ fst (_get_access_token creds post now later TokenCache_init)
     = fst (_refresh_access_token creds post later TokenCache_init).
Proof.
  intros Hcreds Htok.
  assert (Ht : truthy_str (Some token) = true).
  { cbn. destruct (String.eqb_spec token ""); [contradiction | reflexivity]. }
  split; [| split; [| split]].
  - unfold _refresh_access_token. rewrite Hcreds. reflexivity.
  - intros Hfresh. unfold _get_access_token. cbn [_access_token _token_expires_at].
    rewrite Ht. cbn [negb orb].
    replace (Qle_bool (t + e - 60) now) with false; [reflexivity |].
    symmetry. apply Qle_bool_false. exact Hfresh.
  - intros Hstale. unfold _get_access_token. cbn [_access_token _token_expires_at].
    rewrite Ht. cbn [negb orb].
    replace (Qle_bool (t + e - 60) now) with true
      by (symmetry; apply Qle_bool_iff; exact Hstale).
    destruct (_refresh_access_token creds post later _) as [c [| exc]]; cbn;
      [destruct (_access_token c) |]; reflexivity.
  - unfold _get_access_token. cbn [TokenCache_init _access_token truthy_str negb orb].
    destruct (_refresh_access_token creds post later _) as [c [| exc]]; cbn;
      [destruct (_access_token c) |]; reflexivity.
Qed.

Lemma access_token_is_cached_until_expiry_witness :
  let creds := {| client_id := Some "id"; client_secret := Some "secret";
                  refresh_token := Some "refresh"; redirect_uri := Some "uri" |} in
  _get_access_token creds (Err (RuntimeError "offline")) 1100 1101
    {| _access_token := Some "tok"; _token_expires_at := (0 + 1200 - 60)%Q |}
  = ({| _access_token := Some "tok"; _token_expires_at := (0 + 1200 - 60)%Q |}, Ok "tok"%string).
Proof.
  assert (Hne : "tok"%string <> EmptyString) by discriminate.
  apply (proj1 (proj2 (access_token_is_cached_until_expiry
                         {| client_id := Some "id"; client_secret := Some "secret";
                            refresh_token := Some "refresh"; redirect_uri := Some "uri" |}
                         "tok" 0 1200 (Err (RuntimeError "offline")) 1100 1101
                         TokenCache_init eq_refl Hne))).
  reflexivity.
Defined.

(** A refresh that fails leaves the client able to fail again, and it
    can leave it half updated.  With a credential missing or empty it
    raises RuntimeError before anything is asked of the endpoint and the
    state is untouched; when the endpoint's call raises, the state is
    untouched too; but when the answer holds a token and an "expires_in"
    that [float] refuses, the new token is already stored while the expiry
    time is still the old one. *)
Theorem failed_refresh_state
    (creds : Credentials) (post : result TokenPayload) (now : Q) (cache : TokenCache) :
  (truthy_str (client_id creds) && truthy_str (client_secret creds)
   && truthy_str (refresh_token creds) && truthy_str (redirect_uri creds) = false ->
   _refresh_access_token creds post now cache
   = (cache, Raised (RuntimeError "TradeStation client missing OAuth credentials")))
  /\ (forall exc, post = Err exc ->
        fst (_refresh_access_token creds post now cache) = cache)
  /\ (truthy_str (client_id creds) && truthy_str (client_secret creds)
      && truthy_str (refresh_token creds) && truthy_str (redirect_uri creds) = true ->
      forall tok exc,
        post = Ok {| payload_access_token := tok; payload_expires_in := ExpiresInvalid exc |} ->
        _refresh_access_token creds post now cache
        = ({| _access_token := tok; _token_expires_at := _token_expires_at cache |},
           Raised exc)).
Proof.
  unfold _refresh_access_token. split; [| split].
  - intros ->. reflexivity.
  - intros exc ->. destruct (negb _); reflexivity.
  - intros -> tok exc ->. reflexivity.
Qed.

Lemma failed_refresh_state_witness :
  _refresh_access_token
    {| client_id := Some "id"; client_secret := Some ""; refresh_token := Some "refresh";
       redirect_uri := Some "uri" |}
    (Ok {| payload_access_token := Some "tok"; payload_expires_in := ExpiresIn 1200 |})
    0 TokenCache_init
  = (TokenCache_init, Raised (RuntimeError "TradeStation client missing OAuth credentials")).
Proof.
  apply (proj1 (failed_refresh_state
                  {| client_id := Some "id"; client_secret := Some "";
                     refresh_token := Some "refresh"; redirect_uri := Some "uri" |}
                  (Ok {| payload_access_token := Some "tok";
                         payload_expires_in := ExpiresIn 1200 |})
                  0 TokenCache_init)).
  reflexivity.
Defined.

Lemma should_accept_iff_witness :
  Z.of_nat (length (open_positions RiskManager_default)) < max_open_positions RiskManager_default
  /\ gtb (_calculate_trade_risk RiskManager_default alert_signal 1)
         (max_risk_per_trade RiskManager_default) = false
  /\ geb (add (round2 (total_recorded_risk RiskManager_default))
              (risk_contribution RiskManager_default
                 (_calculate_trade_risk RiskManager_default alert_signal 1)))
         (max_total_risk RiskManager_default) = false.
Proof.
  apply (proj1 (proj1 (should_accept_iff RiskManager_default alert_signal 1))).
  reflexivity.
Defined.
